(** * The NVMe shim of the Ochrance framework (src/ffi/c/nvme_shim.c)

    A shallow embedding of the three entry points of the C shim
    ([ochrance_nvme_read_smart], [ochrance_nvme_read_block],
    [ochrance_nvme_write_block]) and of its helper [open_nvme].

    The shim is straight-line code around five libc calls (open, close,
    pread, pwrite, ioctl) and the thread-local [errno].  The calls are not
    part of the repository, so the embedding is parametric in a [Kernel]:
    a type of worlds (user memory, [errno], whatever the operating system
    keeps) together with one transition function per call.  The shim is a
    computation in a small state monad over the world that also records,
    in order, every call it makes.

    Integer types follow the LP64 data model of the Linux targets the shim
    is built for (it includes <linux/nvme_ioctl.h>): [int] is 32 bits,
    [size_t], [uint64_t], [uintptr_t] are 64 bits unsigned, [off_t] and
    [ssize_t] are 64 bits signed.  Pointers to buffers are addresses in
    [Z] with [NULL = 0]; the device path, of which only the contents
    matter, is an [option string] with [None] for [NULL]. *)

From Stdlib Require Import ZArith Lia Bool.
From stdpp Require Import gmap strings list.
From Stdlib Require Import Init.Byte.

Local Open Scope Z_scope.

(** ** C integer types *)

Module CInt.

Definition to_u8 (x : Z) : Z := x mod 2 ^ 8.
Definition to_u32 (x : Z) : Z := x mod 2 ^ 32.
Definition to_u64 (x : Z) : Z := x mod 2 ^ 64.

(** [size_t] and [uintptr_t] are 64-bit unsigned. *)
Definition to_size_t (x : Z) : Z := to_u64 x.
Definition to_uintptr_t (x : Z) : Z := to_u64 x.

(** Conversion of an unsigned 64-bit value to the signed [off_t]:
    two's complement reinterpretation. *)
Definition to_off_t (x : Z) : Z :=
  let u := to_u64 x in if u <? 2 ^ 63 then u else u - 2 ^ 64.

End CInt.
Import CInt.

(** ** Constants of the platform headers *)

(** <errno.h> (asm-generic/errno-base.h) *)
Definition ENOENT : Z := 2.
Definition EIO : Z := 5.
Definition EBADF : Z := 9.
Definition EACCES : Z := 13.
Definition EFAULT : Z := 14.
Definition EINVAL : Z := 22.
Definition ENOTTY : Z := 25.
Definition ENOSPC : Z := 28.
Definition EROFS : Z := 30.

(** <fcntl.h> *)
Definition O_RDONLY : Z := 0.
Definition O_WRONLY : Z := 1.

(** <linux/nvme_ioctl.h>: [_IOWR('N', 0x41, struct nvme_admin_cmd)] *)
Definition NVME_IOCTL_ADMIN_CMD : Z := 0xC0484E41.

(** [struct nvme_admin_cmd] of <linux/nvme_ioctl.h> (the header is the
    kernel's, not the repository's); every field is an unsigned integer
    of the width given in the comment. *)
Record nvme_admin_cmd := mk_cmd {
  opcode : Z;        (* __u8  *)
  flags : Z;         (* __u8  *)
  rsvd1 : Z;         (* __u16 *)
  nsid : Z;          (* __u32 *)
  cdw2 : Z;          (* __u32 *)
  cdw3 : Z;          (* __u32 *)
  metadata : Z;      (* __u64 *)
  addr : Z;          (* __u64 *)
  metadata_len : Z;  (* __u32 *)
  data_len : Z;      (* __u32 *)
  cdw10 : Z;         (* __u32 *)
  cdw11 : Z;         (* __u32 *)
  cdw12 : Z;         (* __u32 *)
  cdw13 : Z;         (* __u32 *)
  cdw14 : Z;         (* __u32 *)
  cdw15 : Z;         (* __u32 *)
  timeout_ms : Z;    (* __u32 *)
  result : Z         (* __u32 *)
}.

(** [memset(&cmd, 0, sizeof(cmd))] *)
Definition cmd_zero : nvme_admin_cmd :=
  mk_cmd 0 0 0 0 0 0 0 0 0 0 0 0 0 0 0 0 0 0.

(** Assignments to the five fields the shim sets; each converts the
    assigned value to the field's type. *)
Definition set_opcode (v : Z) (c : nvme_admin_cmd) : nvme_admin_cmd :=
  let '(mk_cmd _ f r n c2 c3 m a ml dl c10 c11 c12 c13 c14 c15 t res) := c in
  mk_cmd (to_u8 v) f r n c2 c3 m a ml dl c10 c11 c12 c13 c14 c15 t res.

Definition set_nsid (v : Z) (c : nvme_admin_cmd) : nvme_admin_cmd :=
  let '(mk_cmd o f r _ c2 c3 m a ml dl c10 c11 c12 c13 c14 c15 t res) := c in
  mk_cmd o f r (to_u32 v) c2 c3 m a ml dl c10 c11 c12 c13 c14 c15 t res.

Definition set_addr (v : Z) (c : nvme_admin_cmd) : nvme_admin_cmd :=
  let '(mk_cmd o f r n c2 c3 m _ ml dl c10 c11 c12 c13 c14 c15 t res) := c in
  mk_cmd o f r n c2 c3 m (to_u64 v) ml dl c10 c11 c12 c13 c14 c15 t res.

Definition set_data_len (v : Z) (c : nvme_admin_cmd) : nvme_admin_cmd :=
  let '(mk_cmd o f r n c2 c3 m a ml _ c10 c11 c12 c13 c14 c15 t res) := c in
  mk_cmd o f r n c2 c3 m a ml (to_u32 v) c10 c11 c12 c13 c14 c15 t res.

Definition set_cdw10 (v : Z) (c : nvme_admin_cmd) : nvme_admin_cmd :=
  let '(mk_cmd o f r n c2 c3 m a ml dl _ c11 c12 c13 c14 c15 t res) := c in
  mk_cmd o f r n c2 c3 m a ml dl (to_u32 v) c11 c12 c13 c14 c15 t res.

(** ** The operating system interface *)

(** One constructor per libc call of the shim, with the arguments as
    passed. *)
Inductive syscall :=
| SysOpen (path : option string) (oflags : Z)
| SysClose (fd : Z)
| SysPread (fd buf count offset : Z)
| SysPwrite (fd buf count offset : Z)
| SysIoctl (fd request : Z) (cmd : nvme_admin_cmd).

(** A kernel: worlds, the two things the shim and its caller observe in a
    world ([errno] and user memory), and the five calls.  A call returns
    its C return value and the next world. *)
Record Kernel := {
  world : Type;
  errno : world -> Z;
  mem : world -> Z -> byte;
  sys_open : option string -> Z -> world -> Z * world;
  sys_close : Z -> world -> Z * world;
  sys_pread : Z -> Z -> Z -> Z -> world -> Z * world;
  sys_pwrite : Z -> Z -> Z -> Z -> world -> Z * world;
  sys_ioctl : Z -> Z -> nvme_admin_cmd -> world -> Z * world
}.

(** ** The shim *)

Section Shim.

Variable K : Kernel.

(** [sizeof(ochrance_smart_info_t)]: fixed by the compiler's layout of
    the struct of nvme_shim.h, not by the source text (it is 40 under
    the natural alignment of the LP64 ABIs). *)
Variable sizeof_smart_info : Z.

(** State of a run: the world and the calls made so far, oldest first. *)
Record run_state := mk_run {
  rs_world : world K;
  rs_trace : list syscall
}.

Definition M (A : Type) : Type := run_state -> A * run_state.

Definition ret {A} (a : A) : M A := fun s => (a, s).

Definition bind {A B} (m : M A) (k : A -> M B) : M B :=
  fun s => let '(a, s') := m s in k a s'.

Notation "'let*' x ':=' m 'in' k" := (bind m (fun x => k))
  (at level 10, x name, m at level 100, k at level 200).

(** A call: run the kernel's transition and append the call to the
    trace. *)
Definition call (c : syscall) (step : world K -> Z * world K) : M Z :=
  fun s => let '(r, w') := step (rs_world s) in
           (r, mk_run w' (rs_trace s ++ [c])).

Definition c_open (path : option string) (oflags : Z) : M Z :=
  call (SysOpen path oflags) (sys_open K path oflags).

Definition c_close (fd : Z) : M Z :=
  call (SysClose fd) (sys_close K fd).

Definition c_pread (fd buf count offset : Z) : M Z :=
  call (SysPread fd buf count offset) (sys_pread K fd buf count offset).

Definition c_pwrite (fd buf count offset : Z) : M Z :=
  call (SysPwrite fd buf count offset) (sys_pwrite K fd buf count offset).

Definition c_ioctl (fd request : Z) (cmd : nvme_admin_cmd) : M Z :=
  call (SysIoctl fd request cmd) (sys_ioctl K fd request cmd).

(** Reading the lvalue [errno]. *)
Definition get_errno : M Z := fun s => (errno K (rs_world s), s).

(** [static int open_nvme(const char *device_path)] *)
Definition open_nvme (device_path : option string) : M Z :=
  match device_path with
  | None => ret (- EINVAL)
  | Some _ =>
      let* fd := c_open device_path O_RDONLY in
      if fd <? 0 then (let* e := get_errno in ret (- e))
      else ret fd
  end.

(** The command block of [ochrance_nvme_read_smart], from the [memset]
    to the assignment of [cdw10]: "NVMe Admin Command: Get Log Page
    (SMART/Health, Log ID 0x02)".  The size of the struct divided by
    four, minus one, and the shift are computed in [size_t]. *)
Definition get_log_page_cmd (info : Z) : nvme_admin_cmd :=
  let cmd := cmd_zero in
  let cmd := set_opcode 0x02 cmd in             (* Get Log Page *)
  let cmd := set_nsid 0xFFFFFFFF cmd in         (* All namespaces *)
  let cmd := set_addr (to_uintptr_t info) cmd in
  let cmd := set_data_len sizeof_smart_info cmd in
  let cmd :=
    set_cdw10
      (Z.lor 0x02
         (to_size_t
            (Z.shiftl (to_size_t (sizeof_smart_info / 4 - 1)) 16)))
      cmd in                                    (* Log ID + NUMD *)
  cmd.

(** [int ochrance_nvme_read_smart(const char *device_path,
                                  ochrance_smart_info_t *info)] *)
Definition ochrance_nvme_read_smart
    (device_path : option string) (info : Z) : M Z :=
  if info =? 0 then ret (- EINVAL)
  else
    let* fd := open_nvme device_path in
    if fd <? 0 then ret fd
    else
      let cmd := get_log_page_cmd info in
      let* r := c_ioctl fd NVME_IOCTL_ADMIN_CMD cmd in
      let* _ := c_close fd in
      if r <? 0 then (let* e := get_errno in ret (- e))
      else ret 0.

(** [int ochrance_nvme_read_block(const char *device_path, uint64_t lba,
                                  void *buffer, size_t block_size)] *)
Definition ochrance_nvme_read_block
    (device_path : option string) (lba buffer block_size : Z) : M Z :=
  if (buffer =? 0) || (block_size =? 0) then ret (- EINVAL)
  else
    let* fd := c_open device_path O_RDONLY in
    if fd <? 0 then (let* e := get_errno in ret (- e))
    else
      let offset := to_off_t (to_u64 (lba * block_size)) in
      let* n := c_pread fd buffer block_size offset in
      let* _ := c_close fd in
      if n <? 0 then (let* e := get_errno in ret (- e))
      else if negb (to_size_t n =? block_size) then ret (- EIO)
      else ret 0.

(** [int ochrance_nvme_write_block(const char *device_path, uint64_t lba,
                                   const void *buffer, size_t block_size)] *)
Definition ochrance_nvme_write_block
    (device_path : option string) (lba buffer block_size : Z) : M Z :=
  if (buffer =? 0) || (block_size =? 0) then ret (- EINVAL)
  else
    let* fd := c_open device_path O_WRONLY in
    if fd <? 0 then (let* e := get_errno in ret (- e))
    else
      let offset := to_off_t (to_u64 (lba * block_size)) in
      let* n := c_pwrite fd buffer block_size offset in
      let* _ := c_close fd in
      if n <? 0 then (let* e := get_errno in ret (- e))
      else if negb (to_size_t n =? block_size) then ret (- EIO)
      else ret 0.

(** Running an entry point from a world, with an empty trace. *)
Definition run {A} (m : M A) (w : world K) : A * run_state :=
  m (mk_run w []).

Definition status {A} (m : M A) (w : world K) : A := fst (run m w).
Definition final {A} (m : M A) (w : world K) : world K :=
  rs_world (snd (run m w)).
Definition calls {A} (m : M A) (w : world K) : list syscall :=
  rs_trace (snd (run m w)).

End Shim.

Arguments mk_run {K} _ _.
Arguments rs_world {K} _.
Arguments rs_trace {K} _.

(** ** What the shim may assume of a kernel *)

(** The [errno] convention of libc: a call that fails (negative return)
    leaves a positive error number in [errno], and a [close] that
    succeeds leaves [errno] as it was. *)
Record ErrnoConvention (K : Kernel) : Prop := {
  open_sets_errno : forall p f w,
    (sys_open K p f w).1 < 0 -> 0 < errno K (sys_open K p f w).2;
  close_sets_errno : forall fd w,
    (sys_close K fd w).1 < 0 -> 0 < errno K (sys_close K fd w).2;
  close_keeps_errno : forall fd w,
    0 <= (sys_close K fd w).1 ->
    errno K (sys_close K fd w).2 = errno K w;
  pread_sets_errno : forall fd b c o w,
    (sys_pread K fd b c o w).1 < 0 ->
    0 < errno K (sys_pread K fd b c o w).2;
  pwrite_sets_errno : forall fd b c o w,
    (sys_pwrite K fd b c o w).1 < 0 ->
    0 < errno K (sys_pwrite K fd b c o w).2;
  ioctl_sets_errno : forall fd r c w,
    (sys_ioctl K fd r c w).1 < 0 ->
    0 < errno K (sys_ioctl K fd r c w).2
}.

(** Calls that take no pointer to writable user memory ([open], [close],
    and [pwrite], whose buffer is [const]) leave user memory alone. *)
Record MemoryFrame (K : Kernel) : Prop := {
  open_keeps_mem : forall p f w a,
    mem K (sys_open K p f w).2 a = mem K w a;
  close_keeps_mem : forall fd w a,
    mem K (sys_close K fd w).2 a = mem K w a;
  pwrite_keeps_mem : forall fd b c o w a,
    mem K (sys_pwrite K fd b c o w).2 a = mem K w a
}.

(** ** A simulated kernel with block devices *)

(** The repository ships no test double; this one stands for the
    operating system where a statement is about a simulated or mock
    block device.  Device nodes are named by path and hold a fixed-size
    byte store; descriptors are slots of a table; user memory is a flat
    map from addresses to bytes. *)

Module Mock.

(** How a device treats writers: it accepts them, refuses to be opened
    for writing (a read-only mount), or accepts the open and refuses
    each write (write-protected media). *)
Inductive write_policy := Writable | RejectAtOpen | RejectAtWrite.

Record device := mk_device {
  d_data : list byte;        (* the backing store *)
  d_access : bool;           (* the caller may open the node *)
  d_writes : write_policy;
  d_smart : positive + list byte (* Get Log Page: errno, or the page *)
}.

Record open_file := mk_open_file {
  of_path : string;
  of_flags : Z
}.

Record mock_world := mk_world {
  m_errno : Z;
  m_mem : Z -> byte;
  m_devs : gmap string device;
  m_fds : list (option open_file)   (* slot [i] is descriptor [i] *)
}.

Definition with_errno (e : Z) (w : mock_world) : mock_world :=
  mk_world e (m_mem w) (m_devs w) (m_fds w).
Definition with_mem (m : Z -> byte) (w : mock_world) : mock_world :=
  mk_world (m_errno w) m (m_devs w) (m_fds w).
Definition with_devs (d : gmap string device) (w : mock_world) : mock_world :=
  mk_world (m_errno w) (m_mem w) d (m_fds w).
Definition with_fds (f : list (option open_file)) (w : mock_world) : mock_world :=
  mk_world (m_errno w) (m_mem w) (m_devs w) f.

Definition with_data (bs : list byte) (d : device) : device :=
  mk_device bs (d_access d) (d_writes d) (d_smart d).

(** A failing call: return -1 and set [errno]. *)
Definition fail (e : Z) (w : mock_world) : Z * mock_world :=
  (-1, with_errno e w).

(** User memory: [n] bytes from address [a], and a store of a byte
    string at [a]. *)
Definition mem_load (m : Z -> byte) (a : Z) (n : nat) : list byte :=
  (fun i => m (a + Z.of_nat i)) <$> seq 0 n.

Definition mem_store (m : Z -> byte) (a : Z) (bs : list byte) : Z -> byte :=
  fun x => if x <? a then m x
           else default (m x) (bs !! Z.to_nat (x - a)).

(** Descriptors: the lowest free slot is handed out. *)
Fixpoint fd_alloc (f : open_file) (fds : list (option open_file))
  : nat * list (option open_file) :=
  match fds with
  | [] => (O, [Some f])
  | None :: rest => (O, Some f :: rest)
  | Some g :: rest =>
      let '(i, rest') := fd_alloc f rest in (S i, Some g :: rest')
  end.

Definition fd_lookup (fd : Z) (fds : list (option open_file))
  : option open_file :=
  if fd <? 0 then None else mjoin (fds !! Z.to_nat fd).

Definition is_reject_at_open (p : write_policy) : bool :=
  match p with RejectAtOpen => true | _ => false end.

Definition is_writable (p : write_policy) : bool :=
  match p with Writable => true | _ => false end.

Definition mock_open (path : option string) (oflags : Z) (w : mock_world)
  : Z * mock_world :=
  match path with
  | None => fail EFAULT w
  | Some p =>
      match m_devs w !! p with
      | None => fail ENOENT w
      | Some d =>
          if negb (d_access d) then fail EACCES w
          else if (oflags =? O_WRONLY) && is_reject_at_open (d_writes d)
          then fail EROFS w
          else
            let '(i, fds') := fd_alloc (mk_open_file p oflags) (m_fds w) in
            (Z.of_nat i, with_fds fds' w)
      end
  end.

Definition mock_close (fd : Z) (w : mock_world) : Z * mock_world :=
  match fd_lookup fd (m_fds w) with
  | None => fail EBADF w
  | Some _ => (0, with_fds (<[Z.to_nat fd := None]> (m_fds w)) w)
  end.

(** A positioned read delivers the bytes the device has from [offset],
    at most [count] of them: fewer than [count] at the end of the
    device. *)
Definition mock_pread (fd buf count offset : Z) (w : mock_world)
  : Z * mock_world :=
  match fd_lookup fd (m_fds w) with
  | None => fail EBADF w
  | Some f =>
      if of_flags f =? O_WRONLY then fail EBADF w
      else if offset <? 0 then fail EINVAL w
      else
        match m_devs w !! of_path f with
        | None => fail EIO w
        | Some d =>
            let bytes :=
              take (Z.to_nat count) (drop (Z.to_nat offset) (d_data d)) in
            (Z.of_nat (length bytes),
             with_mem (mem_store (m_mem w) buf bytes) w)
        end
  end.

(** A positioned write stores, from [offset], as many of the [count]
    bytes as the device has room for; the device does not grow. *)
Definition mock_pwrite (fd buf count offset : Z) (w : mock_world)
  : Z * mock_world :=
  match fd_lookup fd (m_fds w) with
  | None => fail EBADF w
  | Some f =>
      if of_flags f =? O_RDONLY then fail EBADF w
      else if offset <? 0 then fail EINVAL w
      else
        match m_devs w !! of_path f with
        | None => fail EIO w
        | Some d =>
            if negb (is_writable (d_writes d)) then fail EROFS w
            else
              let room := (length (d_data d) - Z.to_nat offset)%nat in
              if (room =? 0)%nat then fail ENOSPC w
              else
                let n := Nat.min (Z.to_nat count) room in
                let bytes := mem_load (m_mem w) buf n in
                let data' :=
                  take (Z.to_nat offset) (d_data d) ++ bytes
                    ++ drop (Z.to_nat offset + n) (d_data d) in
                (Z.of_nat n,
                 with_devs (<[of_path f := with_data data' d]> (m_devs w)) w)
        end
  end.

(** The admin passthrough understands Get Log Page for the SMART log:
    it fails with the device's error number, or copies the first
    [data_len] bytes of the device's log page to [addr]. *)
Definition mock_ioctl (fd request : Z) (cmd : nvme_admin_cmd)
    (w : mock_world) : Z * mock_world :=
  match fd_lookup fd (m_fds w) with
  | None => fail EBADF w
  | Some f =>
      if negb (request =? NVME_IOCTL_ADMIN_CMD) then fail ENOTTY w
      else
        match m_devs w !! of_path f with
        | None => fail EIO w
        | Some d =>
            match d_smart d with
            | inl e => fail (Z.pos e) w
            | inr page =>
                if (opcode cmd =? 0x02) && (Z.land (cdw10 cmd) 0xFF =? 0x02)
                then
                  (0, with_mem
                        (mem_store (m_mem w) (addr cmd)
                           (take (Z.to_nat (data_len cmd)) page)) w)
                else fail EINVAL w
            end
        end
  end.

Definition kernel : Kernel := {|
  world := mock_world;
  errno := m_errno;
  mem := m_mem;
  sys_open := mock_open;
  sys_close := mock_close;
  sys_pread := mock_pread;
  sys_pwrite := mock_pwrite;
  sys_ioctl := mock_ioctl
|}.

(** *** Sample worlds *)

Definition sample_page : list byte :=
  [x01; x00; x2c; x01; x64; x0a; x03; x00] ++ replicate 32 x07.

(** Sixteen bytes: four blocks of four. *)
Definition disk : device :=
  mk_device
    [x10; x11; x12; x13; x20; x21; x22; x23;
     x30; x31; x32; x33; x40; x41; x42; x43]
    true Writable (inr sample_page).

(** The same store behind a read-only mount, behind write-protected
    media, and behind a controller whose admin queue fails. *)
Definition disk_ro_mount : device :=
  mk_device (d_data disk) true RejectAtOpen (inr sample_page).
Definition disk_protected : device :=
  mk_device (d_data disk) true RejectAtWrite (inr sample_page).
Definition disk_sick : device :=
  mk_device (d_data disk) true Writable (inl 5%positive).

Definition console : open_file := mk_open_file "/dev/tty" 2.

Definition world0 : mock_world :=
  mk_world 0 (fun _ => x00)
    (<["/dev/nvme0n1" := disk]>
       (<["/dev/nvme1n1" := disk_ro_mount]>
          (<["/dev/nvme2n1" := disk_protected]>
             (<["/dev/nvme3" := disk_sick]> ∅))))
    [Some console; Some console; Some console].

End Mock.

(** ** Vocabulary for the statements *)

(** The byte offset both block operations compute. *)
Definition block_offset (lba block_size : Z) : Z :=
  to_off_t (to_u64 (lba * block_size)).

(** [ochrance_nvme_read_block] and [ochrance_nvme_write_block] differ in
    the open flag and in the transfer call only; statements about both
    are indexed by the direction. *)
Inductive direction := Reading | Writing.

Definition block_op (K : Kernel) (d : direction)
  : option string -> Z -> Z -> Z -> M K Z :=
  match d with
  | Reading => ochrance_nvme_read_block K
  | Writing => ochrance_nvme_write_block K
  end.

Definition open_flags (d : direction) : Z :=
  match d with Reading => O_RDONLY | Writing => O_WRONLY end.

Definition sys_transfer (K : Kernel) (d : direction)
  : Z -> Z -> Z -> Z -> world K -> Z * world K :=
  match d with Reading => sys_pread K | Writing => sys_pwrite K end.

Definition SysTransfer (d : direction) : Z -> Z -> Z -> Z -> syscall :=
  match d with Reading => SysPread | Writing => SysPwrite end.

(** The offsets of the positioned transfers of a trace, in order. *)
Definition transfer_offsets (t : list syscall) : list Z :=
  omap (fun c =>
          match c with
          | SysPread _ _ _ o | SysPwrite _ _ _ o => Some o
          | _ => None
          end) t.

(** The admin commands of a trace, each with its request code. *)
Definition admin_cmds (t : list syscall) : list (Z * nvme_admin_cmd) :=
  omap (fun c =>
          match c with
          | SysIoctl _ q cmd => Some (q, cmd)
          | _ => None
          end) t.

(** A Get Log Page for the SMART/Health log of all namespaces, of the
    size of the struct, into [info]: opcode 02h; namespace id all ones;
    in dword 10, log identifier 02h in the low half and the number of
    dwords minus one from bit 16 up. *)
Definition is_smart_log_request (size info : Z)
    (qc : Z * nvme_admin_cmd) : Prop :=
  qc.1 = NVME_IOCTL_ADMIN_CMD /\
  opcode qc.2 = 0x02 /\
  nsid qc.2 = 0xFFFFFFFF /\
  Z.land (cdw10 qc.2) 0xFFFF = 0x02 /\
  Z.shiftr (cdw10 qc.2) 16 = size / 4 - 1 /\
  addr qc.2 = info /\
  data_len qc.2 = size.


(** The block of a simulated device that a read delivers in full. *)
Definition block_of (d : Mock.device) (lba bs : Z) : list byte :=
  take (Z.to_nat bs)
    (drop (Z.to_nat (block_offset lba bs)) (Mock.d_data d)).

(** The simulated device holds the whole block. *)
Definition holds_block (d : Mock.device) (lba bs : Z) : Prop :=
  0 < bs < 2 ^ 64 /\ 0 <= block_offset lba bs /\
  (Z.to_nat (block_offset lba bs) + Z.to_nat bs
   <= length (Mock.d_data d))%nat.

(** The opens of a trace, the descriptors it closes, and the descriptors
    it hands to a transfer or to an ioctl, each in order. *)
Definition opens (t : list syscall) : list (option string * Z) :=
  omap (fun c =>
          match c with
          | SysOpen p f => Some (p, f)
          | _ => None
          end) t.

Definition closed_fds (t : list syscall) : list Z :=
  omap (fun c =>
          match c with
          | SysClose fd => Some fd
          | _ => None
          end) t.

Definition used_fds (t : list syscall) : list Z :=
  omap (fun c =>
          match c with
          | SysPread fd _ _ _ | SysPwrite fd _ _ _ | SysIoctl fd _ _ => Some fd
          | _ => None
          end) t.


(** A sample world with a device node the caller may not open. *)
Definition disk_locked : Mock.device :=
  Mock.mk_device (Mock.d_data Mock.disk) false Mock.Writable
    (inr Mock.sample_page).

Definition world_locked : Mock.mock_world :=
  Mock.with_devs
    (<["/dev/nvme4n1" := disk_locked]> (Mock.m_devs Mock.world0))
    Mock.world0.

(** The simulated kernel with a [close] that releases the descriptor and
    then reports an I/O error, as a close may when it flushes. *)
Definition flaky_close (fd : Z) (w : Mock.mock_world)
  : Z * Mock.mock_world :=
  Mock.fail EIO (Mock.mock_close fd w).2.

Definition flaky_kernel : Kernel := {|
  world := Mock.mock_world;
  errno := Mock.m_errno;
  mem := Mock.m_mem;
  sys_open := Mock.mock_open;
  sys_close := flaky_close;
  sys_pread := Mock.mock_pread;
  sys_pwrite := Mock.mock_pwrite;
  sys_ioctl := Mock.mock_ioctl
|}.

(** ** The SMART structure of nvme_shim.h *)

(** The member types of the struct: [uint8_t], [uint16_t], [uint32_t],
    [uint64_t], with their sizes in bytes. *)
Inductive c_scalar := U8 | U16 | U32 | U64.

Definition scalar_size (t : c_scalar) : nat :=
  match t with U8 => 1 | U16 => 2 | U32 => 4 | U64 => 8 end%nat.

(** [ochrance_smart_info_t], member by member in declaration order. *)
Definition ochrance_smart_info_t : list (string * c_scalar) :=
  [("critical_warning", U8);
   ("composite_temperature", U16);
   ("available_spare", U8);
   ("available_spare_threshold", U8);
   ("percentage_used", U8);
   ("data_units_read", U64);
   ("data_units_written", U64);
   ("power_on_hours", U64);
   ("unsafe_shutdowns", U32);
   ("media_errors", U32)].

(** The SmartInfo record as the specification lists it, each field with
    its width in bits, in the specification's order. *)
Definition spec_smart_info : list (string * nat) :=
  [("critical-warning bitmask", 8);
   ("composite temperature", 16);
   ("available-spare percentage", 8);
   ("spare-threshold percentage", 8);
   ("percentage-of-endurance-used", 8);
   ("data units read", 64);
   ("data units written", 64);
   ("power-on hours", 64);
   ("unsafe-shutdown count", 32);
   ("media-error count", 32)]%nat.

(** The layout of a struct without a packing attribute under the LP64
    ABIs: a scalar is aligned to its size, each member sits at the first
    multiple of its alignment past the member before it, and the size of
    the struct is rounded up to the largest alignment. *)
Definition align_up (x a : nat) : nat := ((x + a - 1) / a * a)%nat.

Fixpoint member_offsets (next : nat) (ms : list c_scalar) : list nat :=
  match ms with
  | [] => []
  | t :: rest =>
      let o := align_up next (scalar_size t) in
      o :: member_offsets (o + scalar_size t) rest
  end.

Fixpoint members_end (next : nat) (ms : list c_scalar) : nat :=
  match ms with
  | [] => next
  | t :: rest =>
      members_end (align_up next (scalar_size t) + scalar_size t) rest
  end.

Definition struct_offsets (s : list (string * c_scalar)) : list nat :=
  member_offsets 0 (snd <$> s).

Definition struct_sizeof (s : list (string * c_scalar)) : nat :=
  align_up (members_end 0 (snd <$> s))
    (foldr Nat.max 1%nat (scalar_size <$> (snd <$> s))).

(** The contiguous layout: each field right after the one before. *)
Fixpoint contiguous_offsets (next : nat) (ms : list c_scalar) : list nat :=
  match ms with
  | [] => []
  | t :: rest => next :: contiguous_offsets (next + scalar_size t) rest
  end.

Definition contiguous_size (s : list (string * c_scalar)) : nat :=
  foldr Nat.add 0%nat (scalar_size <$> (snd <$> s)).

(** The bytes of each member: as the struct at [info] holds them, and as
    a log page holds them when its fields are contiguous. *)
Definition members_in_struct (m : Z -> byte) (info : Z)
    (s : list (string * c_scalar)) : list (list byte) :=
  zip_with (fun o t => Mock.mem_load m (info + Z.of_nat o) (scalar_size t))
    (struct_offsets s) (snd <$> s).

Definition members_in_page (page : list byte)
    (s : list (string * c_scalar)) : list (list byte) :=
  zip_with (fun o t => take (scalar_size t) (drop o page))
    (contiguous_offsets 0 (snd <$> s)) (snd <$> s).

(** A log page with the fields of the record one after the other:
    warning 01h, 300 K, spare 100 %, threshold 10 %, used 3 %, the three
    counters, 4 unsafe shutdowns, 5 media errors; then reserved bytes. *)
Definition contiguous_page : list byte :=
  [x01; x2c; x01; x64; x0a; x03;
   x10; x00; x00; x00; x00; x00; x00; x00;
   x20; x00; x00; x00; x00; x00; x00; x00;
   x30; x00; x00; x00; x00; x00; x00; x00;
   x04; x00; x00; x00;
   x05; x00; x00; x00] ++ replicate 26 x00.

Definition disk_contiguous : Mock.device :=
  Mock.mk_device (Mock.d_data Mock.disk) true Mock.Writable
    (inr contiguous_page).

Definition world_contiguous : Mock.mock_world :=
  Mock.with_devs
    (<["/dev/nvme5" := disk_contiguous]> (Mock.m_devs Mock.world0))
    Mock.world0.

(** The simulated kernel with a controller that completes the Get Log
    Page with a status other than success (here 109h, "invalid log
    page"): the passthrough ioctl returns the status, a positive number,
    and leaves [errno] and the buffer alone. *)
Definition refusing_ioctl (fd request : Z) (cmd : nvme_admin_cmd)
    (w : Mock.mock_world) : Z * Mock.mock_world :=
  match Mock.fd_lookup fd (Mock.m_fds w) with
  | None => Mock.fail EBADF w
  | Some _ =>
      if negb (request =? NVME_IOCTL_ADMIN_CMD) then Mock.fail ENOTTY w
      else (0x109, w)
  end.

Definition refusing_kernel : Kernel := {|
  world := Mock.mock_world;
  errno := Mock.m_errno;
  mem := Mock.m_mem;
  sys_open := Mock.mock_open;
  sys_close := Mock.mock_close;
  sys_pread := Mock.mock_pread;
  sys_pwrite := Mock.mock_pwrite;
  sys_ioctl := refusing_ioctl
|}.

(** ** The runs of the entry points, call by call *)

(** Name the pair a call returns, wherever the goal scrutinises one. *)
Ltac name_call :=
  let r := fresh "r" in
  let w := fresh "w" in
  simpl;
  match goal with
  | |- context [let '(_, _) := sys_open ?k ?p ?f ?x in _] =>
      destruct (sys_open k p f x) as [r w]
  | |- context [let '(_, _) := sys_close ?k ?fd ?x in _] =>
      destruct (sys_close k fd x) as [r w]
  | |- context [let '(_, _) := sys_pread ?k ?fd ?b ?c ?o ?x in _] =>
      destruct (sys_pread k fd b c o x) as [r w]
  | |- context [let '(_, _) := sys_pwrite ?k ?fd ?b ?c ?o ?x in _] =>
      destruct (sys_pwrite k fd b c o x) as [r w]
  | |- context [let '(_, _) := sys_ioctl ?k ?fd ?q ?c ?x in _] =>
      destruct (sys_ioctl k fd q c x) as [r w]
  end; simpl.

Section Runs.

Variable K : Kernel.
Variable sizeof_smart_info : Z.

Abbreviation read_smart := (ochrance_nvme_read_smart K sizeof_smart_info).
Abbreviation read_block := (ochrance_nvme_read_block K).
Abbreviation write_block := (ochrance_nvme_write_block K).

Lemma read_block_invalid p lba buf bs w :
  buf = 0 \/ bs = 0 ->
  run K (read_block p lba buf bs) w = (- EINVAL, mk_run w []).
Proof.
  intros H. unfold run, ochrance_nvme_read_block.
  replace ((buf =? 0) || (bs =? 0)) with true; [reflexivity|].
  symmetry. apply orb_true_iff. destruct H; subst; auto.
Qed.

Lemma write_block_invalid p lba buf bs w :
  buf = 0 \/ bs = 0 ->
  run K (write_block p lba buf bs) w = (- EINVAL, mk_run w []).
Proof.
  intros H. unfold run, ochrance_nvme_write_block.
  replace ((buf =? 0) || (bs =? 0)) with true; [reflexivity|].
  symmetry. apply orb_true_iff. destruct H; subst; auto.
Qed.

Lemma valid_args buf bs :
  buf <> 0 -> bs <> 0 -> (buf =? 0) || (bs =? 0) = false.
Proof.
  intros Hb Hs. apply orb_false_iff. split; apply Z.eqb_neq; assumption.
Qed.

Lemma read_block_run p lba buf bs w :
  buf <> 0 -> bs <> 0 ->
  run K (read_block p lba buf bs) w =
    let o := sys_open K p O_RDONLY w in
    if o.1 <? 0
    then (- errno K o.2, mk_run o.2 [SysOpen p O_RDONLY])
    else
      let r := sys_pread K o.1 buf bs (block_offset lba bs) o.2 in
      let c := sys_close K o.1 r.2 in
      (if r.1 <? 0 then - errno K c.2
       else if negb (to_size_t r.1 =? bs) then - EIO else 0,
       mk_run c.2
         [SysOpen p O_RDONLY;
          SysPread o.1 buf bs (block_offset lba bs);
          SysClose o.1]).
Proof.
  intros Hb Hs. unfold run, ochrance_nvme_read_block.
  rewrite (valid_args _ _ Hb Hs).
  unfold bind, c_open, c_pread, c_close, call, get_errno, ret,
    block_offset. simpl.
  name_call. destruct (r <? 0); [reflexivity|].
  do 2 name_call.
  destruct (r0 <? 0); simpl; [reflexivity|].
  destruct (to_size_t r0 =? bs); reflexivity.
Qed.

Lemma write_block_run p lba buf bs w :
  buf <> 0 -> bs <> 0 ->
  run K (write_block p lba buf bs) w =
    let o := sys_open K p O_WRONLY w in
    if o.1 <? 0
    then (- errno K o.2, mk_run o.2 [SysOpen p O_WRONLY])
    else
      let r := sys_pwrite K o.1 buf bs (block_offset lba bs) o.2 in
      let c := sys_close K o.1 r.2 in
      (if r.1 <? 0 then - errno K c.2
       else if negb (to_size_t r.1 =? bs) then - EIO else 0,
       mk_run c.2
         [SysOpen p O_WRONLY;
          SysPwrite o.1 buf bs (block_offset lba bs);
          SysClose o.1]).
Proof.
  intros Hb Hs. unfold run, ochrance_nvme_write_block.
  rewrite (valid_args _ _ Hb Hs).
  unfold bind, c_open, c_pwrite, c_close, call, get_errno, ret,
    block_offset. simpl.
  name_call. destruct (r <? 0); [reflexivity|].
  do 2 name_call.
  destruct (r0 <? 0); simpl; [reflexivity|].
  destruct (to_size_t r0 =? bs); reflexivity.
Qed.

Lemma block_op_invalid d p lba buf bs w :
  buf = 0 \/ bs = 0 ->
  run K (block_op K d p lba buf bs) w = (- EINVAL, mk_run w []).
Proof.
  destruct d; [apply read_block_invalid | apply write_block_invalid].
Qed.

Lemma block_op_run d p lba buf bs w :
  buf <> 0 -> bs <> 0 ->
  run K (block_op K d p lba buf bs) w =
    let o := sys_open K p (open_flags d) w in
    if o.1 <? 0
    then (- errno K o.2, mk_run o.2 [SysOpen p (open_flags d)])
    else
      let r := sys_transfer K d o.1 buf bs (block_offset lba bs) o.2 in
      let c := sys_close K o.1 r.2 in
      (if r.1 <? 0 then - errno K c.2
       else if negb (to_size_t r.1 =? bs) then - EIO else 0,
       mk_run c.2
         [SysOpen p (open_flags d);
          SysTransfer d o.1 buf bs (block_offset lba bs);
          SysClose o.1]).
Proof.
  destruct d; [apply read_block_run | apply write_block_run].
Qed.

Lemma read_smart_null_info p w :
  run K (read_smart p 0) w = (- EINVAL, mk_run w []).
Proof. reflexivity. Qed.

Lemma read_smart_null_path info w :
  run K (read_smart None info) w = (- EINVAL, mk_run w []).
Proof.
  unfold run, ochrance_nvme_read_smart.
  destruct (info =? 0); reflexivity.
Qed.

Lemma read_smart_open_failed p info w :
  info <> 0 ->
  (sys_open K (Some p) O_RDONLY w).1 < 0 ->
  0 < errno K (sys_open K (Some p) O_RDONLY w).2 ->
  run K (read_smart (Some p) info) w =
    let o := sys_open K (Some p) O_RDONLY w in
    (- errno K o.2, mk_run o.2 [SysOpen (Some p) O_RDONLY]).
Proof.
  intros Hi Hfd He. unfold run, ochrance_nvme_read_smart.
  apply Z.eqb_neq in Hi. rewrite Hi.
  unfold open_nvme, bind, c_open, call, get_errno, ret. simpl.
  destruct (sys_open K (Some p) O_RDONLY w) as [fd w1]. simpl in *.
  apply Z.ltb_lt in Hfd. rewrite Hfd. simpl.
  replace (- errno K w1 <? 0) with true; [reflexivity|].
  symmetry. apply Z.ltb_lt. lia.
Qed.

Lemma read_smart_run p info w :
  info <> 0 ->
  0 <= (sys_open K (Some p) O_RDONLY w).1 ->
  run K (read_smart (Some p) info) w =
    let o := sys_open K (Some p) O_RDONLY w in
    let cmd := get_log_page_cmd sizeof_smart_info info in
    let r := sys_ioctl K o.1 NVME_IOCTL_ADMIN_CMD cmd o.2 in
    let c := sys_close K o.1 r.2 in
    (if r.1 <? 0 then - errno K c.2 else 0,
     mk_run c.2
       [SysOpen (Some p) O_RDONLY;
        SysIoctl o.1 NVME_IOCTL_ADMIN_CMD cmd;
        SysClose o.1]).
Proof.
  intros Hi Hfd. unfold run, ochrance_nvme_read_smart.
  apply Z.eqb_neq in Hi. rewrite Hi.
  unfold open_nvme, bind, c_open, c_ioctl, c_close, call, get_errno, ret.
  simpl.
  destruct (sys_open K (Some p) O_RDONLY w) as [fd w1]. simpl in *.
  assert (Hge : (fd <? 0) = false) by (apply Z.ltb_ge; lia).
  rewrite Hge. simpl. rewrite Hge.
  do 2 name_call. destruct (r <? 0); reflexivity.
Qed.

End Runs.

(** ** Integer facts *)

Section Integers.

Lemma to_u64_small x : 0 <= x < 2 ^ 64 -> to_u64 x = x.
Proof. intros H. unfold to_u64. apply Z.mod_small. exact H. Qed.

Lemma to_u32_small x : 0 <= x < 2 ^ 32 -> to_u32 x = x.
Proof. intros H. unfold to_u32. apply Z.mod_small. exact H. Qed.

Lemma to_off_t_small x : 0 <= x < 2 ^ 63 -> to_off_t x = x.
Proof.
  intros H. unfold to_off_t. rewrite to_u64_small by lia.
  destruct (Z.ltb_spec x (2 ^ 63)); lia.
Qed.

(** Without overflow the computed offset is the product. *)
Lemma offset_is_product lba bs :
  0 <= lba * bs < 2 ^ 63 -> block_offset lba bs = lba * bs.
Proof.
  intros H. unfold block_offset.
  rewrite to_u64_small by lia. apply to_off_t_small. exact H.
Qed.

(** In general it is the product reduced modulo 2^64 and read as a
    signed 64-bit number. *)
Lemma block_offset_congruent lba bs :
  (block_offset lba bs - lba * bs) mod 2 ^ 64 = 0 /\
  - 2 ^ 63 <= block_offset lba bs < 2 ^ 63.
Proof.
  unfold block_offset, to_off_t, to_u64.
  rewrite Z.mod_mod by lia.
  pose proof (Z.mod_pos_bound (lba * bs) (2 ^ 64) ltac:(lia)) as Hb.
  pose proof (Z.div_mod (lba * bs) (2 ^ 64) ltac:(lia)) as Hd.
  destruct (Z.ltb_spec ((lba * bs) mod 2 ^ 64) (2 ^ 63)); split; try lia.
  - replace ((lba * bs) mod 2 ^ 64 - lba * bs)
      with (- (lba * bs / 2 ^ 64) * 2 ^ 64) by lia.
    apply Z.mod_mul. lia.
  - replace ((lba * bs) mod 2 ^ 64 - 2 ^ 64 - lba * bs)
      with ((- (lba * bs / 2 ^ 64) - 1) * 2 ^ 64) by lia.
    apply Z.mod_mul. lia.
Qed.

(** A transfer of fewer bytes than asked never compares equal to the
    block size. *)
Lemma short_count_differs n bs :
  0 <= n < bs -> negb (to_size_t n =? bs) = true.
Proof.
  intros H. apply negb_true_iff, Z.eqb_neq.
  unfold to_size_t, to_u64.
  pose proof (Z.mod_le n (2 ^ 64) ltac:(lia) ltac:(lia)). lia.
Qed.

Lemma two_disjoint_from_high q : Z.land 2 (q * 2 ^ 16) = 0.
Proof.
  apply Z.bits_inj'. intros n Hn.
  rewrite Z.land_spec, Z.bits_0.
  destruct (Z.ltb_spec n 16) as [Hlo | Hhi].
  - rewrite (Z.mul_pow2_bits_low q 16 n) by lia. apply andb_false_r.
  - rewrite (Z.bits_above_log2 2 n) by (simpl; lia). reflexivity.
Qed.

(** The value stored in [cdw10]: no conversion truncates when the
    struct has at least one dword and fewer than 2^16 + 1 of them. *)
Lemma cdw10_value size :
  4 <= size < 2 ^ 18 ->
  to_u32 (Z.lor 2 (to_size_t (Z.shiftl (to_size_t (size / 4 - 1)) 16)))
  = 2 + (size / 4 - 1) * 2 ^ 16.
Proof.
  intros H.
  assert (Hq : 0 <= size / 4 - 1 < 2 ^ 16).
  { pose proof (Z.div_mod size 4 ltac:(lia)).
    pose proof (Z.mod_pos_bound size 4 ltac:(lia)). lia. }
  set (q := size / 4 - 1) in *.
  unfold to_size_t. rewrite (to_u64_small q) by lia.
  rewrite Z.shiftl_mul_pow2 by lia.
  rewrite (to_u64_small (q * 2 ^ 16)) by lia.
  rewrite <- Z.lxor_lor by apply two_disjoint_from_high.
  rewrite <- Z.add_nocarry_lxor by apply two_disjoint_from_high.
  apply to_u32_small. lia.
Qed.

Lemma cdw10_log_id q :
  Z.land (2 + q * 2 ^ 16) 0xFFFF = 2.
Proof.
  change 0xFFFF with (Z.ones 16). rewrite Z.land_ones by lia.
  rewrite Z.mod_add by lia. reflexivity.
Qed.

Lemma cdw10_numd q :
  Z.shiftr (2 + q * 2 ^ 16) 16 = q.
Proof.
  rewrite Z.shiftr_div_pow2 by lia.
  rewrite Z.div_add by lia. reflexivity.
Qed.

End Integers.

(** ** Properties of the shim over any kernel *)

Section Properties.

Variable K : Kernel.
Variable sizeof_smart_info : Z.

Abbreviation read_smart := (ochrance_nvme_read_smart K sizeof_smart_info).
Abbreviation write_block := (ochrance_nvme_write_block K).

(** Projections of [run]. *)
Lemma status_run {A} (m : M K A) w : status K m w = (run K m w).1.
Proof. reflexivity. Qed.

Lemma final_run {A} (m : M K A) w : final K m w = rs_world (run K m w).2.
Proof. reflexivity. Qed.

Lemma calls_run {A} (m : M K A) w : calls K m w = rs_trace (run K m w).2.
Proof. reflexivity. Qed.

Ltac by_run lem :=
  rewrite ?status_run, ?final_run, ?calls_run; rewrite lem by assumption;
  cbv zeta.

(** C1 (amended): for a call of read_block or write_block with a non-null
    buffer, a positive block size and a product lba * block_size below
    2^63, the offset handed to the positioned transfer is the exact
    product; the call makes one transfer when the open succeeds and none
    when it fails. *)
Theorem block_offset_exact d p lba buf bs w :
  buf <> 0 -> 0 < bs -> 0 <= lba -> lba * bs < 2 ^ 63 ->
  transfer_offsets (calls K (block_op K d p lba buf bs) w) =
    if (sys_open K p (open_flags d) w).1 <? 0 then [] else [lba * bs].
Proof.
  intros Hb Hs Hl Hp.
  assert (Hs' : bs <> 0) by lia.
  by_run block_op_run.
  destruct ((sys_open K p (open_flags d) w).1 <? 0); simpl.
  - reflexivity.
  - rewrite offset_is_product by nia.
    destruct d; reflexivity.
Qed.

(** C6: when the device opens and the positioned transfer moves fewer
    bytes than block_size, read_block and write_block return -EIO, which
    is not success, after a single transfer call (no retry). *)
Theorem short_transfer_is_io_failure d p lba buf bs w :
  let o := sys_open K p (open_flags d) w in
  let r := sys_transfer K d o.1 buf bs (block_offset lba bs) o.2 in
  buf <> 0 -> bs <> 0 -> 0 <= o.1 -> 0 <= r.1 < bs ->
  status K (block_op K d p lba buf bs) w = - EIO /\
  status K (block_op K d p lba buf bs) w <> 0 /\
  calls K (block_op K d p lba buf bs) w =
    [SysOpen p (open_flags d);
     SysTransfer d o.1 buf bs (block_offset lba bs);
     SysClose o.1].
Proof.
  intros o r Hb Hs Ho Hr.
  assert (Hopen : (o.1 <? 0) = false) by (apply Z.ltb_ge; lia).
  assert (Hn : (r.1 <? 0) = false) by (apply Z.ltb_ge; lia).
  by_run block_op_run. fold o. rewrite Hopen. fold r. simpl.
  rewrite Hn, (short_count_differs _ _ Hr).
  repeat split. discriminate.
Qed.

(** C10: write_block leaves all of user memory as it found it, and so
    the caller's input buffer, whatever the outcome of the call. *)
Theorem write_block_keeps_memory (F : MemoryFrame K) p lba buf bs w a :
  mem K (final K (write_block p lba buf bs) w) a = mem K w a.
Proof.
  destruct (Z.eq_dec buf 0) as [Hb | Hb].
  { rewrite final_run, write_block_invalid by (left; exact Hb).
    reflexivity. }
  destruct (Z.eq_dec bs 0) as [Hs | Hs].
  { rewrite final_run, write_block_invalid by (right; exact Hs).
    reflexivity. }
  by_run write_block_run.
  destruct ((sys_open K p O_WRONLY w).1 <? 0); simpl.
  - apply (open_keeps_mem K F).
  - rewrite (close_keeps_mem K F), (pwrite_keeps_mem K F).
    apply (open_keeps_mem K F).
Qed.


(** X17: when read_smart has opened the device and the ioctl call itself
    fails (negative return), the operation returns a negative status; the
    status is the negated errno of the ioctl when the close that follows
    succeeds. *)
Theorem smart_admin_failure_is_negative (E : ErrnoConvention K)
    p info w :
  let o := sys_open K (Some p) O_RDONLY w in
  let r := sys_ioctl K o.1 NVME_IOCTL_ADMIN_CMD
             (get_log_page_cmd sizeof_smart_info info) o.2 in
  info <> 0 -> 0 <= o.1 -> r.1 < 0 ->
  status K (read_smart (Some p) info) w < 0 /\
  status K (read_smart (Some p) info) w <> 0 /\
  (0 <= (sys_close K o.1 r.2).1 ->
   status K (read_smart (Some p) info) w = - errno K r.2).
Proof.
  intros o r Hi Ho Hr.
  by_run read_smart_run. fold o. fold r. simpl.
  apply Z.ltb_lt in Hr as Hr'. rewrite Hr'.
  pose proof (ioctl_sets_errno K E _ _ _ _ Hr) as He. fold r in He.
  destruct (Z.lt_ge_cases (sys_close K o.1 r.2).1 0) as [Hc | Hc].
  - pose proof (close_sets_errno K E _ _ Hc). lia.
  - rewrite (close_keeps_errno K E _ _ Hc). lia.
Qed.

Lemma get_log_page_cmd_encoding info :
  4 <= sizeof_smart_info < 2 ^ 18 -> 0 <= info < 2 ^ 64 ->
  is_smart_log_request sizeof_smart_info info
    (NVME_IOCTL_ADMIN_CMD, get_log_page_cmd sizeof_smart_info info).
Proof.
  intros Hsz Hinfo. unfold is_smart_log_request, get_log_page_cmd. simpl.
  rewrite cdw10_value by assumption.
  unfold to_uintptr_t. rewrite !(to_u64_small info) by lia.
  rewrite (to_u32_small sizeof_smart_info) by lia.
  repeat split; auto using cdw10_log_id, cdw10_numd.
Qed.

(** C7: every admin command read_smart_log issues is a Get Log Page
    (opcode 02h) for log 02h of all namespaces (nsid FFFFFFFFh), whose
    dword count minus one, size / 4 - 1, sits from bit 16 of dword 10,
    whose data pointer is the caller's buffer and whose data length is
    the size of the struct; a call issues at most one. *)
Theorem smart_command_encoding p info w :
  4 <= sizeof_smart_info < 2 ^ 18 -> 0 <= info < 2 ^ 64 ->
  Forall (is_smart_log_request sizeof_smart_info info)
    (admin_cmds (calls K (read_smart p info) w)) /\
  (length (admin_cmds (calls K (read_smart p info) w)) <= 1)%nat.
Proof.
  intros Hsz Hinfo.
  pose proof (get_log_page_cmd_encoding info Hsz Hinfo) as Hcmd.
  unfold calls, run, ochrance_nvme_read_smart.
  destruct (info =? 0); [simpl; auto|].
  destruct p as [p|]; [|simpl; auto].
  unfold open_nvme, bind, c_open, c_ioctl, c_close, call, get_errno, ret.
  name_call.
  destruct (r <? 0); simpl.
  - destruct (- errno K w0 <? 0); simpl; [auto|].
    do 2 name_call. destruct (r0 <? 0); simpl; auto.
  - destruct (r <? 0); simpl; [auto|].
    do 2 name_call. destruct (r0 <? 0); simpl; auto.
Qed.

End Properties.

(** ** The simulated kernel honours the conventions *)

Section MockConventions.

Import Mock.

Lemma fd_alloc_lookup f fds i fds' :
  fd_alloc f fds = (i, fds') -> fds' !! i = Some (Some f).
Proof.
  revert i fds'. induction fds as [|[g|] rest IH]; intros i fds' H.
  - inversion H. reflexivity.
  - simpl in H. destruct (fd_alloc f rest) as [j rest'] eqn:Hrest.
    inversion H. subst. simpl. apply IH. reflexivity.
  - inversion H. reflexivity.
Qed.

Lemma fd_lookup_alloc f fds i fds' :
  fd_alloc f fds = (i, fds') -> fd_lookup (Z.of_nat i) fds' = Some f.
Proof.
  intros H. unfold fd_lookup.
  destruct (Z.ltb_spec (Z.of_nat i) 0); [lia|].
  rewrite Nat2Z.id, (fd_alloc_lookup _ _ _ _ H). reflexivity.
Qed.

Lemma mock_errno_convention : ErrnoConvention kernel.
Proof.
  split; simpl.
  - intros p f w. unfold mock_open, fail.
    repeat case_match; simpl; unfold EFAULT, ENOENT, EACCES, EROFS; lia.
  - intros fd w. unfold mock_close, fail.
    repeat case_match; simpl; unfold EBADF; lia.
  - intros fd w. unfold mock_close, fail.
    repeat case_match; simpl; [reflexivity | lia].
  - intros fd b c o w. unfold mock_pread, fail.
    repeat case_match; simpl; unfold EBADF, EINVAL, EIO; lia.
  - intros fd b c o w. unfold mock_pwrite, fail.
    repeat case_match; simpl;
      unfold EBADF, EINVAL, EIO, EROFS, ENOSPC; lia.
  - intros fd r c w. unfold mock_ioctl, fail.
    repeat case_match; simpl; unfold EBADF, EINVAL, EIO, ENOTTY; lia.
Qed.

Lemma mock_memory_frame : MemoryFrame kernel.
Proof.
  split; simpl.
  - intros p f w a. unfold mock_open, fail.
    repeat case_match; reflexivity.
  - intros fd w a. unfold mock_close, fail.
    repeat case_match; reflexivity.
  - intros fd b c o w a. unfold mock_pwrite, fail.
    repeat case_match; reflexivity.
Qed.

End MockConventions.

(** ** Blocks on the simulated device *)

Section MockBlocks.

Import Mock.

Abbreviation read_block := (ochrance_nvme_read_block kernel).
Abbreviation write_block := (ochrance_nvme_write_block kernel).

(** Loading what was just stored gives it back. *)
Lemma mem_load_store m a (bs : list byte) :
  mem_load (mem_store m a bs) a (length bs) = bs.
Proof.
  apply list_eq. intros i. unfold mem_load.
  rewrite list_lookup_fmap.
  destruct (decide (i < length bs)%nat) as [Hlt | Hge].
  - rewrite lookup_seq_lt by exact Hlt. simpl.
    destruct (lookup_lt_is_Some_2 bs i Hlt) as [x Hx].
    unfold mem_store.
    destruct (Z.ltb_spec (a + Z.of_nat i) a); [lia|].
    replace (Z.to_nat (a + Z.of_nat i - a)) with i by lia.
    rewrite Hx. reflexivity.
  - rewrite lookup_seq_ge by lia.
    rewrite lookup_ge_None_2 by lia. reflexivity.
Qed.

(** Splicing a segment of a list back where it came from. *)
Lemma splice_same (l : list byte) (off n : nat) :
  take off l ++ take n (drop off l) ++ drop (off + n) l = l.
Proof.
  rewrite <- drop_drop, take_drop. apply take_drop.
Qed.

Lemma with_data_same d : with_data (d_data d) d = d.
Proof. destruct d. reflexivity. Qed.

Lemma block_of_length d lba bs :
  holds_block d lba bs -> length (block_of d lba bs) = Z.to_nat bs.
Proof.
  intros (Hbs & Hoff & Hlen). unfold block_of.
  rewrite length_take, length_drop. lia.
Qed.

(** A read of a block the device holds succeeds and stores the block
    in the buffer; the devices are as before. *)
Lemma mock_read_held w path d lba buf bs :
  buf <> 0 ->
  m_devs w !! path = Some d -> d_access d = true ->
  holds_block d lba bs ->
  status kernel (read_block (Some path) lba buf bs) w = 0 /\
  m_mem (final kernel (read_block (Some path) lba buf bs) w)
    = mem_store (m_mem w) buf (block_of d lba bs) /\
  m_devs (final kernel (read_block (Some path) lba buf bs) w) = m_devs w.
Proof.
  intros Hb Hd Ha Hh.
  pose proof (block_of_length _ _ _ Hh) as Hlen.
  destruct Hh as (Hbs & Hoff & Hroom).
  unfold status, final. rewrite read_block_run by lia.
  cbv zeta. simpl sys_open. unfold mock_open.
  rewrite Hd, Ha. simpl.
  destruct (fd_alloc _ (m_fds w)) as [i fds'] eqn:Halloc. simpl.
  destruct (Z.ltb_spec (Z.of_nat i) 0); [lia|].
  unfold mock_pread, mock_close. simpl.
  rewrite (fd_lookup_alloc _ _ _ _ Halloc). simpl.
  destruct (Z.ltb_spec (block_offset lba bs) 0); [lia|].
  rewrite Hd. simpl.
  rewrite (fd_lookup_alloc _ _ _ _ Halloc). simpl.
  fold (block_of d lba bs). rewrite Hlen.
  unfold to_size_t. rewrite to_u64_small by lia.
  rewrite Z2Nat.id by lia. rewrite Z.eqb_refl. simpl.
  destruct (Z.ltb_spec bs 0); [lia|]. repeat split.
Qed.

(** Conversely a read succeeds only on a block the device holds. *)
Lemma mock_read_success_inv w p lba buf bs :
  status kernel (read_block p lba buf bs) w = 0 ->
  buf <> 0 /\
  exists path d,
    p = Some path /\ m_devs w !! path = Some d /\ d_access d = true /\
    holds_block d lba bs.
Proof.
  intros Hok.
  destruct (Z.eq_dec buf 0) as [Hb | Hb].
  { unfold status in Hok.
    rewrite read_block_invalid in Hok by (left; exact Hb).
    discriminate. }
  destruct (Z.eq_dec bs 0) as [Hs | Hs].
  { unfold status in Hok.
    rewrite read_block_invalid in Hok by (right; exact Hs).
    discriminate. }
  split; [exact Hb|].
  unfold status in Hok. rewrite read_block_run in Hok by assumption.
  cbv zeta in Hok. simpl sys_open in Hok. unfold mock_open in Hok.
  destruct p as [path|]; [|discriminate].
  destruct (m_devs w !! path) as [d|] eqn:Hd; [|discriminate].
  destruct (d_access d) eqn:Ha; [|discriminate].
  exists path, d.
  split; [reflexivity|]. split; [exact Hd|]. split; [exact Ha|].
  simpl in Hok.
  destruct (fd_alloc _ (m_fds w)) as [i fds'] eqn:Halloc. simpl in Hok.
  destruct (Z.ltb_spec (Z.of_nat i) 0); [lia|].
  unfold mock_pread, mock_close in Hok. simpl in Hok.
  rewrite (fd_lookup_alloc _ _ _ _ Halloc) in Hok. simpl in Hok.
  destruct (Z.ltb_spec (block_offset lba bs) 0) as [Hneg | Hoff].
  { simpl in Hok. rewrite (fd_lookup_alloc _ _ _ _ Halloc) in Hok.
    discriminate. }
  rewrite Hd in Hok. simpl in Hok.
  rewrite (fd_lookup_alloc _ _ _ _ Halloc) in Hok. simpl in Hok.
  match type of Hok with
  | context [Z.of_nat (length ?b)] => set (bytes := b) in *
  end.
  destruct (Z.ltb_spec (Z.of_nat (length bytes)) 0); [lia|].
  destruct (Z.eqb_spec (to_size_t (Z.of_nat (length bytes))) bs)
    as [Heq | Hne]; [|discriminate].
  assert (Hlen : length bytes
                 = Nat.min (Z.to_nat bs)
                     (length (d_data d) - Z.to_nat (block_offset lba bs)))
    by (unfold bytes; rewrite length_take, length_drop; reflexivity).
  unfold to_size_t, to_u64 in Heq.
  pose proof (Z.mod_pos_bound (Z.of_nat (length bytes)) (2 ^ 64)
                ltac:(lia)) as Hbound.
  assert (Hsmall : Z.of_nat (length bytes) < 2 ^ 64) by lia.
  rewrite Z.mod_small in Heq by lia.
  unfold holds_block. repeat split; lia.
Qed.

(** Writing back the block the device already holds there changes
    neither the devices nor user memory, whether the device takes the
    write or turns it away. *)
Lemma mock_write_back w path d lba buf bs :
  buf <> 0 ->
  m_devs w !! path = Some d -> d_access d = true ->
  holds_block d lba bs ->
  mem_load (m_mem w) buf (Z.to_nat bs) = block_of d lba bs ->
  m_devs (final kernel (write_block (Some path) lba buf bs) w) = m_devs w /\
  m_mem (final kernel (write_block (Some path) lba buf bs) w) = m_mem w.
Proof.
  intros Hb Hd Ha Hh Hmem.
  destruct Hh as (Hbs & Hoff & Hroom).
  unfold final. rewrite write_block_run by lia.
  cbv zeta. simpl sys_open. unfold mock_open.
  rewrite Hd, Ha. simpl.
  destruct (is_reject_at_open (d_writes d)) eqn:Hpol; simpl;
    [split; reflexivity|].
  destruct (fd_alloc _ (m_fds w)) as [i fds'] eqn:Halloc. simpl.
  destruct (Z.ltb_spec (Z.of_nat i) 0); [lia|].
  unfold mock_pwrite, mock_close. simpl.
  rewrite (fd_lookup_alloc _ _ _ _ Halloc). simpl.
  destruct (Z.ltb_spec (block_offset lba bs) 0); [lia|].
  rewrite Hd. simpl.
  destruct (is_writable (d_writes d)); simpl.
  - destruct (Nat.eqb_spec
                (length (d_data d) - Z.to_nat (block_offset lba bs)) 0);
      [lia|].
    simpl. rewrite (fd_lookup_alloc _ _ _ _ Halloc). simpl.
    rewrite Nat.min_l by lia. rewrite Hmem. unfold block_of.
    rewrite splice_same, with_data_same, insert_id by exact Hd.
    split; reflexivity.
  - rewrite (fd_lookup_alloc _ _ _ _ Halloc). simpl.
    split; reflexivity.
Qed.

End MockBlocks.

(** ** Properties on the simulated device *)

Section OnTheMock.

Import Mock.

Abbreviation read_block := (ochrance_nvme_read_block kernel).
Abbreviation write_block := (ochrance_nvme_write_block kernel).

(** C2: on the simulated block device, after a read_block that succeeds,
    writing the bytes just read back to the same lba and reading the
    block again succeeds and yields the bytes of the first read. *)
Theorem block_round_trip p lba buf buf' bs w :
  let w1 := final kernel (read_block p lba buf bs) w in
  let w2 := final kernel (write_block p lba buf bs) w1 in
  let w3 := final kernel (read_block p lba buf' bs) w2 in
  status kernel (read_block p lba buf bs) w = 0 ->
  buf' <> 0 ->
  status kernel (read_block p lba buf' bs) w2 = 0 /\
  mem_load (m_mem w3) buf' (Z.to_nat bs)
    = mem_load (m_mem w1) buf (Z.to_nat bs).
Proof.
  intros w1 w2 w3 Hok Hb'.
  destruct (mock_read_success_inv _ _ _ _ _ Hok)
    as (Hb & path & d & -> & Hd & Ha & Hh).
  pose proof (block_of_length _ _ _ Hh) as Hlen.
  destruct (mock_read_held w path d lba buf bs Hb Hd Ha Hh)
    as (_ & Hmem1 & Hdevs1).
  fold w1 in Hmem1, Hdevs1.
  assert (Hd1 : m_devs w1 !! path = Some d) by (rewrite Hdevs1; exact Hd).
  assert (Hload1 : mem_load (m_mem w1) buf (Z.to_nat bs) = block_of d lba bs).
  { rewrite Hmem1, <- Hlen. apply mem_load_store. }
  destruct (mock_write_back w1 path d lba buf bs Hb Hd1 Ha Hh Hload1)
    as (Hdevs2 & _).
  fold w2 in Hdevs2.
  assert (Hd2 : m_devs w2 !! path = Some d) by (rewrite Hdevs2; exact Hd1).
  destruct (mock_read_held w2 path d lba buf' bs Hb' Hd2 Ha Hh)
    as (Hok3 & Hmem3 & _).
  fold w3 in Hmem3.
  split; [exact Hok3|].
  rewrite Hload1, Hmem3, <- Hlen. apply mem_load_store.
Qed.

Lemma block_round_trip_witness :
  status kernel (read_block (Some "/dev/nvme0n1") 1 1000 4)
    (final kernel (write_block (Some "/dev/nvme0n1") 1 1000 4)
       (final kernel (read_block (Some "/dev/nvme0n1") 1 1000 4) world0))
  = 0 /\
  mem_load
    (m_mem
       (final kernel (read_block (Some "/dev/nvme0n1") 1 2000 4)
          (final kernel (write_block (Some "/dev/nvme0n1") 1 1000 4)
             (final kernel (read_block (Some "/dev/nvme0n1") 1 1000 4)
                world0)))) 2000 4
  = mem_load
      (m_mem (final kernel (read_block (Some "/dev/nvme0n1") 1 1000 4)
                world0)) 1000 4.
Proof.
  destruct (block_round_trip (Some "/dev/nvme0n1") 1 1000 2000 4 world0)
    as [Hok Hsame].
  - vm_compute. reflexivity.
  - discriminate.
  - exact (conj Hok Hsame).
Defined.

(** C1 (as stated) fails: with lba = 2^52 and block_size = 4096 the
    product is 2^64, and the transfer is positioned at offset 0. *)
Lemma block_offset_wraps :
  transfer_offsets
    (calls kernel
       (block_op kernel Reading (Some "/dev/nvme0n1") (2 ^ 52) 1000 4096)
       world0) = [0] /\
  transfer_offsets
    (calls kernel
       (block_op kernel Writing (Some "/dev/nvme0n1") (2 ^ 52) 1000 4096)
       world0) = [0] /\
  2 ^ 52 * 4096 = 2 ^ 64 /\ 2 ^ 52 * 4096 <> 0.
Proof. vm_compute. repeat split; discriminate. Qed.

Lemma block_offset_exact_witness :
  transfer_offsets
    (calls kernel
       (block_op kernel Reading (Some "/dev/nvme0n1") 10 1000 4096)
       world0) = [40960].
Proof.
  apply (block_offset_exact kernel Reading (Some "/dev/nvme0n1")
           10 1000 4096 world0); lia.
Defined.

(** C5: read_block and write_block hand a null device path to open; the
    status is the kernel's complaint about the pointer, -EFAULT, and not
    the -EINVAL that read_smart_log gives through open_nvme. *)
Theorem null_path_reaches_open :
  status kernel (read_block None 0 1000 4096) world0 = - EFAULT /\
  calls kernel (read_block None 0 1000 4096) world0
    = [SysOpen None O_RDONLY] /\
  status kernel (write_block None 0 1000 4096) world0 = - EFAULT /\
  calls kernel (write_block None 0 1000 4096) world0
    = [SysOpen None O_WRONLY] /\
  status kernel (ochrance_nvme_read_smart kernel 40 None 1000) world0
    = - EINVAL /\
  - EFAULT <> - EINVAL.
Proof. vm_compute. repeat split; discriminate. Qed.

Lemma short_transfer_is_io_failure_witness :
  status kernel (read_block (Some "/dev/nvme0n1") 3 1000 5) world0
    = - EIO /\
  status kernel (read_block (Some "/dev/nvme0n1") 3 1000 5) world0 <> 0 /\
  calls kernel (read_block (Some "/dev/nvme0n1") 3 1000 5) world0
    = [SysOpen (Some "/dev/nvme0n1") O_RDONLY;
       SysPread 3 1000 5 15;
       SysClose 3].
Proof.
  apply (short_transfer_is_io_failure kernel Reading
           (Some "/dev/nvme0n1") 3 1000 5 world0).
  - discriminate.
  - discriminate.
  - vm_compute. discriminate.
  - vm_compute. split; [discriminate | reflexivity].
Defined.

Lemma write_block_keeps_memory_witness :
  m_mem (final kernel (write_block (Some "/dev/nvme0n1") 1 1000 4) world0)
    1000
  = m_mem world0 1000.
Proof.
  exact (write_block_keeps_memory kernel mock_memory_frame
           (Some "/dev/nvme0n1") 1 1000 4 world0 1000).
Defined.



Lemma smart_admin_failure_is_negative_witness :
  status kernel
    (ochrance_nvme_read_smart kernel 40 (Some "/dev/nvme3") 1000) world0
  < 0 /\
  status kernel
    (ochrance_nvme_read_smart kernel 40 (Some "/dev/nvme3") 1000) world0
  = - EIO.
Proof.
  destruct (smart_admin_failure_is_negative kernel 40 mock_errno_convention
              "/dev/nvme3" 1000 world0) as (Hneg & _ & Hpass).
  - discriminate.
  - vm_compute. discriminate.
  - vm_compute. reflexivity.
  - split; [exact Hneg|]. apply Hpass. vm_compute. discriminate.
Defined.

Lemma smart_command_encoding_witness :
  Forall (is_smart_log_request 40 1000)
    (admin_cmds
       (calls kernel
          (ochrance_nvme_read_smart kernel 40 (Some "/dev/nvme0n1") 1000)
          world0)) /\
  (length
     (admin_cmds
        (calls kernel
           (ochrance_nvme_read_smart kernel 40 (Some "/dev/nvme0n1") 1000)
           world0)) <= 1)%nat.
Proof.
  apply (smart_command_encoding kernel 40 (Some "/dev/nvme0n1") 1000
           world0); lia.
Defined.

(** The command of the sample run, field by field. *)
Example smart_command_sample :
  admin_cmds
    (calls kernel
       (ochrance_nvme_read_smart kernel 40 (Some "/dev/nvme0n1") 1000)
       world0)
  = [(0xC0484E41,
      mk_cmd 0x02 0 0 0xFFFFFFFF 0 0 0 1000 0 40 0x00090002
        0 0 0 0 0 0 0)].
Proof. vm_compute. reflexivity. Qed.

End OnTheMock.

(** ** Further properties of the shim over any kernel *)

Section Contract.

Variable K : Kernel.
Variable sizeof_smart_info : Z.

Abbreviation read_smart := (ochrance_nvme_read_smart K sizeof_smart_info).

Ltac to_run := unfold status, final, calls.

(** A positive [errno] survives a [close]: kept by one that succeeds,
    replaced by another positive number by one that fails. *)
Lemma errno_positive_after_close (E : ErrnoConvention K) fd w :
  0 < errno K w -> 0 < errno K (sys_close K fd w).2.
Proof.
  intros Hpos.
  destruct (Z.lt_ge_cases (sys_close K fd w).1 0) as [Hc | Hc].
  - apply (close_sets_errno K E _ _ Hc).
  - rewrite (close_keeps_errno K E _ _ Hc). exact Hpos.
Qed.

(** X1: Arguments are checked before anything else: a null [info] or a null
    path in read_smart, a null buffer or a zero block size in the block
    operations, give -EINVAL with no system call made and the world as it
    was, whatever the other arguments are. *)
Theorem invalid_arguments_make_no_call d p p' lba info buf bs w :
  info = 0 \/ p = None ->
  buf = 0 \/ bs = 0 ->
  run K (read_smart p info) w = (- EINVAL, mk_run w []) /\
  run K (block_op K d p' lba buf bs) w = (- EINVAL, mk_run w []).
Proof.
  intros Hs Hb. split.
  - destruct Hs as [-> | ->].
    + apply read_smart_null_info.
    + apply read_smart_null_path.
  - apply block_op_invalid. exact Hb.
Qed.

(** X2: [open_nvme] returns a non-negative value only as the descriptor of a
    read-only open that succeeded, its single call. *)
Theorem open_nvme_descriptor (E : ErrnoConvention K) p w :
  0 <= status K (open_nvme K p) w ->
  exists path,
    p = Some path /\
    status K (open_nvme K p) w = (sys_open K (Some path) O_RDONLY w).1 /\
    calls K (open_nvme K p) w = [SysOpen (Some path) O_RDONLY].
Proof.
  to_run. unfold run, open_nvme.
  destruct p as [path|]; [|simpl; unfold EINVAL; lia].
  unfold bind, c_open, call, get_errno, ret.
  pose proof (open_sets_errno K E (Some path) O_RDONLY w) as He.
  cbn [rs_world rs_trace].
  destruct (sys_open K (Some path) O_RDONLY w) as [fd w1] eqn:Ho.
  cbn [fst snd] in *.
  destruct (Z.ltb_spec fd 0) as [Hneg | Hok]; simpl.
  - specialize (He Hneg). lia.
  - intros _. exists path. rewrite Ho. repeat split.
Qed.

(** X3: A block operation opens at most once, hands to its transfer the
    descriptor it closes, and closes exactly the descriptor a successful
    open returned: none when the arguments are invalid or the open fails,
    and that one also when the transfer fails or falls short. *)
Theorem block_op_descriptor_scoped d p lba buf bs w :
  (length (opens (calls K (block_op K d p lba buf bs) w)) <= 1)%nat /\
  used_fds (calls K (block_op K d p lba buf bs) w)
    = closed_fds (calls K (block_op K d p lba buf bs) w) /\
  closed_fds (calls K (block_op K d p lba buf bs) w)
    = if (buf =? 0) || (bs =? 0) then []
      else if (sys_open K p (open_flags d) w).1 <? 0 then []
      else [(sys_open K p (open_flags d) w).1].
Proof.
  to_run.
  destruct (Z.eqb_spec buf 0) as [Hb | Hb].
  { rewrite block_op_invalid by (left; exact Hb). simpl. auto. }
  destruct (Z.eqb_spec bs 0) as [Hs | Hs].
  { rewrite block_op_invalid by (right; exact Hs). simpl. auto. }
  rewrite block_op_run by assumption. cbv zeta. simpl orb. cbv iota.
  destruct ((sys_open K p (open_flags d) w).1 <? 0); simpl.
  - auto.
  - destruct d; simpl; auto.
Qed.

(** X4: read_smart, under the errno convention, likewise: at most one open,
    the ioctl on the descriptor that is closed, and nothing closed but
    the descriptor of a successful open. *)
Theorem read_smart_descriptor_scoped (E : ErrnoConvention K) p info w :
  (length (opens (calls K (read_smart p info) w)) <= 1)%nat /\
  used_fds (calls K (read_smart p info) w)
    = closed_fds (calls K (read_smart p info) w) /\
  Forall (fun fd => 0 <= fd /\
                    fd = (sys_open K p O_RDONLY w).1)
    (closed_fds (calls K (read_smart p info) w)).
Proof.
  to_run.
  destruct (Z.eq_dec info 0) as [-> | Hi].
  { rewrite read_smart_null_info. simpl. auto. }
  destruct p as [path|].
  2: { rewrite read_smart_null_path. simpl. auto. }
  destruct (Z.lt_ge_cases (sys_open K (Some path) O_RDONLY w).1 0)
    as [Hneg | Hok].
  - rewrite read_smart_open_failed;
      [simpl; auto | exact Hi | exact Hneg |].
    apply (open_sets_errno K E _ _ _ Hneg).
  - rewrite read_smart_run by assumption. simpl. repeat split; auto.
Qed.

(** X5: A block operation reports success exactly when the device opened and
    the transfer moved a non-negative number of bytes equal to the block
    size. *)
Theorem block_status_zero_iff (E : ErrnoConvention K) d p lba buf bs w :
  let o := sys_open K p (open_flags d) w in
  let r := sys_transfer K d o.1 buf bs (block_offset lba bs) o.2 in
  status K (block_op K d p lba buf bs) w = 0 <->
  buf <> 0 /\ bs <> 0 /\ 0 <= o.1 /\ 0 <= r.1 /\ to_size_t r.1 = bs.
Proof.
  intros o r. to_run.
  destruct (Z.eq_dec buf 0) as [Hb | Hb].
  { rewrite block_op_invalid by (left; exact Hb). simpl.
    split; [discriminate | tauto]. }
  destruct (Z.eq_dec bs 0) as [Hs | Hs].
  { rewrite block_op_invalid by (right; exact Hs). simpl.
    split; [discriminate | tauto]. }
  rewrite block_op_run by assumption. cbv zeta. fold o.
  destruct (Z.ltb_spec o.1 0) as [Ho | Ho]; simpl.
  - pose proof (open_sets_errno K E p (open_flags d) w Ho) as He.
    fold o in He. split; [lia | intros (_ & _ & H & _); lia].
  - fold r. destruct (Z.ltb_spec r.1 0) as [Hr | Hr].
    + assert (He : 0 < errno K r.2).
      { destruct d; [apply (pread_sets_errno K E) |
                     apply (pwrite_sets_errno K E)]; exact Hr. }
      pose proof (errno_positive_after_close E o.1 r.2 He) as Hpos.
      split; [lia | intros (_ & _ & _ & H & _); lia].
    + destruct (Z.eqb_spec (to_size_t r.1) bs) as [Heq | Hne]; simpl.
      * tauto.
      * split; [discriminate | intros (_ & _ & _ & _ & H); contradiction].
Qed.

(** X6: read_smart reports success exactly when [info] and the path are not
    null, the device opened and the ioctl returned a non-negative value:
    a positive return of the ioctl counts as success. *)
Theorem smart_status_zero_iff (E : ErrnoConvention K) p info w :
  status K (read_smart p info) w = 0 <->
  info <> 0 /\
  exists path,
    p = Some path /\
    0 <= (sys_open K (Some path) O_RDONLY w).1 /\
    0 <= (sys_ioctl K (sys_open K (Some path) O_RDONLY w).1
            NVME_IOCTL_ADMIN_CMD
            (get_log_page_cmd sizeof_smart_info info)
            (sys_open K (Some path) O_RDONLY w).2).1.
Proof.
  to_run.
  destruct (Z.eq_dec info 0) as [-> | Hi].
  { rewrite read_smart_null_info. simpl.
    split; [discriminate | intros [H _]; contradiction]. }
  destruct p as [path|].
  2: { rewrite read_smart_null_path. simpl.
       split; [discriminate | intros (_ & q & H & _); discriminate]. }
  destruct (Z.lt_ge_cases (sys_open K (Some path) O_RDONLY w).1 0)
    as [Ho | Ho].
  - pose proof (open_sets_errno K E _ _ _ Ho) as He.
    rewrite read_smart_open_failed by assumption. simpl.
    split; [lia|]. intros (_ & q & Hq & H & _).
    injection Hq as <-. lia.
  - rewrite read_smart_run by assumption. cbv zeta. simpl.
    match goal with
    | |- context [sys_ioctl K ?fd ?q ?c ?x] =>
        set (r := sys_ioctl K fd q c x)
    end.
    destruct (Z.ltb_spec r.1 0) as [Hr | Hr].
    + pose proof (ioctl_sets_errno K E _ _ _ _ Hr) as He. fold r in He.
      pose proof (errno_positive_after_close E
                    (sys_open K (Some path) O_RDONLY w).1 r.2 He) as Hpos.
      split; [lia|]. intros (_ & q & Hq & _ & H).
      injection Hq as <-. fold r in H. lia.
    + split; [|reflexivity]. intros _. split; [exact Hi|].
      exists path. repeat split; assumption.
Qed.

(** X7: No entry point ever returns a positive status. *)
Theorem status_never_positive (E : ErrnoConvention K)
    d p lba info buf bs w :
  status K (read_smart p info) w <= 0 /\
  status K (block_op K d p lba buf bs) w <= 0.
Proof.
  split.
  - destruct (Z.eq_dec (status K (read_smart p info) w) 0) as [H0 | Hn0];
      [lia|].
    revert Hn0. to_run.
    destruct (Z.eq_dec info 0) as [-> | Hi].
    { rewrite read_smart_null_info. simpl. unfold EINVAL. lia. }
    destruct p as [path|].
    2: { rewrite read_smart_null_path. simpl. unfold EINVAL. lia. }
    destruct (Z.lt_ge_cases (sys_open K (Some path) O_RDONLY w).1 0)
      as [Ho | Ho].
    + pose proof (open_sets_errno K E _ _ _ Ho) as He.
      rewrite read_smart_open_failed by assumption. simpl. lia.
    + rewrite read_smart_run by assumption. cbv zeta. simpl.
      match goal with
      | |- context [sys_ioctl K ?fd ?q ?c ?x] =>
          set (r := sys_ioctl K fd q c x)
      end.
      destruct (Z.ltb_spec r.1 0) as [Hr | Hr]; [|lia].
      pose proof (ioctl_sets_errno K E _ _ _ _ Hr) as He. fold r in He.
      pose proof (errno_positive_after_close E
                    (sys_open K (Some path) O_RDONLY w).1 r.2 He) as Hpos.
      lia.
  - to_run.
    destruct (Z.eq_dec buf 0) as [Hb | Hb].
    { rewrite block_op_invalid by (left; exact Hb). simpl.
      unfold EINVAL. lia. }
    destruct (Z.eq_dec bs 0) as [Hs | Hs].
    { rewrite block_op_invalid by (right; exact Hs). simpl.
      unfold EINVAL. lia. }
    rewrite block_op_run by assumption. cbv zeta.
    set (o := sys_open K p (open_flags d) w).
    destruct (Z.ltb_spec o.1 0) as [Ho | Ho]; simpl.
    + pose proof (open_sets_errno K E p (open_flags d) w Ho) as He.
      fold o in He. lia.
    + set (r := sys_transfer K d o.1 buf bs (block_offset lba bs) o.2).
      destruct (Z.ltb_spec r.1 0) as [Hr | Hr].
      * assert (He : 0 < errno K r.2).
        { destruct d; [apply (pread_sets_errno K E) |
                       apply (pwrite_sets_errno K E)]; exact Hr. }
        pose proof (errno_positive_after_close E o.1 r.2 He) as Hpos. lia.
      * destruct (negb (to_size_t r.1 =? bs)); unfold EIO; lia.
Qed.

(** X8: A failed open is passed through by each operation: when the open
    the operation makes (read-only for read_smart and read_block,
    write-only for write_block) fails, the status is the negated [errno]
    that open left, whichever it is, and the open is the only call
    made. *)
Theorem open_failure_is_passed_through (E : ErrnoConvention K)
    d p path lba info buf bs w w' :
  (info <> 0 ->
   (sys_open K (Some path) O_RDONLY w).1 < 0 ->
   run K (read_smart (Some path) info) w
     = (- errno K (sys_open K (Some path) O_RDONLY w).2,
        mk_run (sys_open K (Some path) O_RDONLY w).2
          [SysOpen (Some path) O_RDONLY])) /\
  (buf <> 0 -> bs <> 0 ->
   (sys_open K p (open_flags d) w').1 < 0 ->
   run K (block_op K d p lba buf bs) w'
     = (- errno K (sys_open K p (open_flags d) w').2,
        mk_run (sys_open K p (open_flags d) w').2
          [SysOpen p (open_flags d)])).
Proof.
  split.
  - intros Hi Hro.
    apply read_smart_open_failed; [exact Hi | exact Hro |].
    apply (open_sets_errno K E _ _ _ Hro).
  - intros Hb Hs Hd.
    rewrite block_op_run by assumption. cbv zeta.
    apply Z.ltb_lt in Hd. rewrite Hd. reflexivity.
Qed.

(** X9: A transfer that fails after a successful open is followed by the
    close, and the status is negative: the negated [errno] of the transfer
    when the close succeeds. *)
Theorem transfer_failure_is_passed_through (E : ErrnoConvention K)
    d p lba buf bs w :
  let o := sys_open K p (open_flags d) w in
  let r := sys_transfer K d o.1 buf bs (block_offset lba bs) o.2 in
  buf <> 0 -> bs <> 0 -> 0 <= o.1 -> r.1 < 0 ->
  status K (block_op K d p lba buf bs) w < 0 /\
  calls K (block_op K d p lba buf bs) w =
    [SysOpen p (open_flags d);
     SysTransfer d o.1 buf bs (block_offset lba bs);
     SysClose o.1] /\
  (0 <= (sys_close K o.1 r.2).1 ->
   status K (block_op K d p lba buf bs) w = - errno K r.2).
Proof.
  intros o r Hb Hs Ho Hr. to_run.
  rewrite block_op_run by assumption. cbv zeta. fold o.
  assert (Ho' : (o.1 <? 0) = false) by (apply Z.ltb_ge; lia).
  rewrite Ho'. fold r. simpl.
  apply Z.ltb_lt in Hr as Hr'. rewrite Hr'.
  assert (He : 0 < errno K r.2).
  { destruct d; [apply (pread_sets_errno K E) |
                 apply (pwrite_sets_errno K E)]; exact Hr. }
  pose proof (errno_positive_after_close E o.1 r.2 He) as Hpos.
  repeat split; [lia|].
  intros Hc. rewrite (close_keeps_errno K E _ _ Hc). reflexivity.
Qed.

End Contract.

(** ** Addressing, the command block and the buffers *)

Section Addressing.

Variable K : Kernel.
Variable sizeof_smart_info : Z.

Abbreviation read_smart := (ochrance_nvme_read_smart K sizeof_smart_info).

(** X11: Whatever the arguments, an offset handed to a positioned transfer is
    the product lba * block_size up to a multiple of 2^64, in the range
    of a signed 64-bit [off_t]: past 2^63 the product wraps, possibly to
    a negative offset. *)
Theorem transfer_offset_wraps d p lba buf bs w :
  Forall (fun o => (o - lba * bs) mod 2 ^ 64 = 0 /\
                   - 2 ^ 63 <= o < 2 ^ 63)
    (transfer_offsets (calls K (block_op K d p lba buf bs) w)).
Proof.
  unfold calls.
  destruct (Z.eq_dec buf 0) as [Hb | Hb].
  { rewrite block_op_invalid by (left; exact Hb). constructor. }
  destruct (Z.eq_dec bs 0) as [Hs | Hs].
  { rewrite block_op_invalid by (right; exact Hs). constructor. }
  rewrite block_op_run by assumption. cbv zeta.
  destruct ((sys_open K p (open_flags d) w).1 <? 0); simpl.
  - constructor.
  - destruct d; simpl; repeat constructor;
      apply block_offset_congruent.
Qed.

Lemma block_offset_shift lba delta bs :
  (delta * bs) mod 2 ^ 64 = 0 ->
  block_offset (lba + delta) bs = block_offset lba bs.
Proof.
  intros H. unfold block_offset. f_equal. unfold to_u64.
  replace ((lba + delta) * bs) with (lba * bs + delta * bs) by lia.
  rewrite Z.add_mod by lia. rewrite H, Z.add_0_r.
  apply Z.mod_mod. lia.
Qed.

(** X12: Two block addresses whose byte offsets differ by a multiple of 2^64
    are the same block to the shim: the calls, the final world and the
    status are the same. *)
Theorem block_addresses_alias d p lba delta buf bs w :
  (delta * bs) mod 2 ^ 64 = 0 ->
  run K (block_op K d p (lba + delta) buf bs) w
    = run K (block_op K d p lba buf bs) w.
Proof.
  intros H.
  destruct (Z.eq_dec buf 0) as [Hb | Hb].
  { rewrite !block_op_invalid by (left; exact Hb). reflexivity. }
  destruct (Z.eq_dec bs 0) as [Hs | Hs].
  { rewrite !block_op_invalid by (right; exact Hs). reflexivity. }
  rewrite !block_op_run by assumption.
  rewrite (block_offset_shift _ _ _ H). reflexivity.
Qed.

(** X13: The Get Log Page command never asks for more bytes than [data_len]
    announces, and for exactly that many when the size of the struct is
    a multiple of four; it carries no metadata buffer, no time-out of
    its own and nothing in the dwords the shim does not set. *)
Theorem smart_request_fits_buffer info :
  4 <= sizeof_smart_info < 2 ^ 18 ->
  let cmd := get_log_page_cmd sizeof_smart_info info in
  4 * (Z.shiftr (cdw10 cmd) 16 + 1) <= data_len cmd /\
  (sizeof_smart_info mod 4 = 0 ->
   4 * (Z.shiftr (cdw10 cmd) 16 + 1) = data_len cmd) /\
  data_len cmd - 4 * (Z.shiftr (cdw10 cmd) 16 + 1) < 4 /\
  (flags cmd, rsvd1 cmd, cdw2 cmd, cdw3 cmd) = (0, 0, 0, 0) /\
  (metadata cmd, metadata_len cmd, timeout_ms cmd, result cmd)
    = (0, 0, 0, 0) /\
  (cdw11 cmd, cdw12 cmd, cdw13 cmd, cdw14 cmd, cdw15 cmd)
    = (0, 0, 0, 0, 0).
Proof.
  intros Hsz cmd. unfold cmd, get_log_page_cmd. simpl.
  rewrite cdw10_value by assumption. rewrite cdw10_numd.
  rewrite (to_u32_small sizeof_smart_info) by lia.
  pose proof (Z.div_mod sizeof_smart_info 4 ltac:(lia)).
  pose proof (Z.mod_pos_bound sizeof_smart_info 4 ltac:(lia)).
  repeat split; try reflexivity; lia.
Qed.



End Addressing.

(** ** Writing, then reading, on the simulated device *)

Section MockWrites.

Import Mock.

Abbreviation read_block := (ochrance_nvme_read_block kernel).
Abbreviation write_block := (ochrance_nvme_write_block kernel).

Lemma mem_load_length m a n : length (mem_load m a n) = n.
Proof. unfold mem_load. rewrite length_fmap. apply length_seq. Qed.



(** The store of a device after a full block from user memory has
    replaced the block at the offset. *)
Lemma written_store_block d lba bs (block : list byte) :
  holds_block d lba bs -> length block = Z.to_nat bs ->
  let off := Z.to_nat (block_offset lba bs) in
  let d' := with_data
              (take off (d_data d) ++ block
                 ++ drop (off + Z.to_nat bs) (d_data d)) d in
  holds_block d' lba bs /\ block_of d' lba bs = block /\
  d_access d' = d_access d.
Proof.
  intros (Hbs & Hoff & Hroom) Hlen off d'.
  assert (Htake : length (take off (d_data d)) = off)
    by (apply length_take_le; unfold off; lia).
  split; [|split; [|reflexivity]].
  - unfold holds_block, d'. simpl.
    rewrite !length_app, Htake, Hlen, length_drop. fold off. lia.
  - unfold block_of, d'. simpl. fold off.
    rewrite drop_app_length' by (symmetry; exact Htake).
    apply take_app_length'. symmetry. exact Hlen.
Qed.

(** A write succeeds only on a block the device holds, and then puts
    the buffer's bytes in its place; user memory is as before. *)
Lemma mock_write_success_inv w p lba buf bs :
  status kernel (write_block p lba buf bs) w = 0 ->
  buf <> 0 /\
  exists path d,
    p = Some path /\ m_devs w !! path = Some d /\ d_access d = true /\
    holds_block d lba bs /\
    m_mem (final kernel (write_block p lba buf bs) w) = m_mem w /\
    m_devs (final kernel (write_block p lba buf bs) w)
      = <[path :=
            with_data
              (take (Z.to_nat (block_offset lba bs)) (d_data d)
                 ++ mem_load (m_mem w) buf (Z.to_nat bs)
                 ++ drop (Z.to_nat (block_offset lba bs) + Z.to_nat bs)
                      (d_data d)) d]> (m_devs w).
Proof.
  intros Hok.
  destruct (Z.eq_dec buf 0) as [Hb | Hb].
  { unfold status in Hok.
    rewrite write_block_invalid in Hok by (left; exact Hb).
    discriminate. }
  destruct (Z.eq_dec bs 0) as [Hs | Hs].
  { unfold status in Hok.
    rewrite write_block_invalid in Hok by (right; exact Hs).
    discriminate. }
  split; [exact Hb|].
  unfold status in Hok. unfold final.
  rewrite write_block_run in * by assumption.
  cbv zeta in *. simpl sys_open in *. unfold mock_open in *.
  destruct p as [path|]; [|discriminate].
  destruct (m_devs w !! path) as [d|] eqn:Hd; [|discriminate].
  destruct (d_access d) eqn:Ha; [|discriminate].
  exists path, d.
  split; [reflexivity|]. split; [exact Hd|]. split; [exact Ha|].
  simpl in *.
  destruct (is_reject_at_open (d_writes d)); [discriminate|].
  destruct (fd_alloc _ (m_fds w)) as [i fds'] eqn:Halloc. simpl in *.
  destruct (Z.ltb_spec (Z.of_nat i) 0); [lia|].
  unfold mock_pwrite, mock_close in *. simpl in *.
  rewrite (fd_lookup_alloc _ _ _ _ Halloc) in *. simpl in *.
  destruct (Z.ltb_spec (block_offset lba bs) 0) as [Hneg | Hoff].
  { simpl in Hok. rewrite (fd_lookup_alloc _ _ _ _ Halloc) in Hok.
    discriminate. }
  rewrite Hd in *. simpl in *.
  destruct (is_writable (d_writes d)); simpl in *.
  2: { rewrite (fd_lookup_alloc _ _ _ _ Halloc) in Hok. discriminate. }
  destruct (Nat.eqb_spec
              (length (d_data d) - Z.to_nat (block_offset lba bs)) 0)
    as [Hfull | Hroom]; simpl in *.
  { rewrite (fd_lookup_alloc _ _ _ _ Halloc) in Hok. discriminate. }
  rewrite (fd_lookup_alloc _ _ _ _ Halloc) in *. simpl in *.
  set (n := Nat.min (Z.to_nat bs)
              (length (d_data d) - Z.to_nat (block_offset lba bs))) in *.
  destruct (Z.ltb_spec (Z.of_nat n) 0); [lia|].
  destruct (Z.eqb_spec (to_size_t (Z.of_nat n)) bs) as [Heq | Hne];
    [|discriminate].
  unfold to_size_t, to_u64 in Heq.
  pose proof (Z.mod_pos_bound (Z.of_nat n) (2 ^ 64) ltac:(lia)) as Hbound.
  assert (Hsmall : Z.of_nat n < 2 ^ 64) by lia.
  rewrite Z.mod_small in Heq by lia.
  assert (Hn : n = Z.to_nat bs) by lia.
  split; [unfold holds_block; repeat split; lia|].
  split; [reflexivity|].
  simpl. rewrite Hn. reflexivity.
Qed.

(** X16: On the simulated device, a block written with success is the block
    read next from the same lba: the read succeeds and delivers the
    bytes the writer's buffer held. *)
Theorem block_write_then_read p lba buf buf' bs w :
  let w1 := final kernel (write_block p lba buf bs) w in
  let w2 := final kernel (read_block p lba buf' bs) w1 in
  status kernel (write_block p lba buf bs) w = 0 ->
  buf' <> 0 ->
  status kernel (read_block p lba buf' bs) w1 = 0 /\
  mem_load (m_mem w2) buf' (Z.to_nat bs)
    = mem_load (m_mem w) buf (Z.to_nat bs).
Proof.
  intros w1 w2 Hok Hb'.
  destruct (mock_write_success_inv _ _ _ _ _ Hok)
    as (Hb & path & d & -> & Hd & Ha & Hh & Hmem1 & Hdevs1).
  fold w1 in Hmem1, Hdevs1.
  set (block := mem_load (m_mem w) buf (Z.to_nat bs)) in *.
  assert (Hlen : length block = Z.to_nat bs) by apply mem_load_length.
  destruct (written_store_block d lba bs block Hh Hlen)
    as (Hh' & Hblock & Ha').
  match type of Hdevs1 with
  | _ = <[_ := ?x]> _ => set (d' := x) in *
  end.
  assert (Hd1 : m_devs w1 !! path = Some d')
    by (rewrite Hdevs1; apply lookup_insert_eq).
  rewrite Ha in Ha'.
  destruct (mock_read_held w1 path d' lba buf' bs Hb' Hd1 Ha' Hh')
    as (Hok2 & Hmem2 & _).
  fold w2 in Hmem2.
  split; [exact Hok2|].
  rewrite Hmem2, Hblock, <- Hlen. apply mem_load_store.
Qed.

Lemma block_write_then_read_witness :
  status kernel (read_block (Some "/dev/nvme0n1") 2 2000 4)
    (final kernel (write_block (Some "/dev/nvme0n1") 2 1000 4) world0)
  = 0 /\
  mem_load
    (m_mem
       (final kernel (read_block (Some "/dev/nvme0n1") 2 2000 4)
          (final kernel (write_block (Some "/dev/nvme0n1") 2 1000 4)
             world0))) 2000 4
  = mem_load (m_mem world0) 1000 4.
Proof.
  destruct (block_write_then_read (Some "/dev/nvme0n1") 2 1000 2000 4
              world0) as [Hok Hsame].
  - vm_compute. reflexivity.
  - discriminate.
  - exact (conj Hok Hsame).
Defined.

End MockWrites.

(** ** Sample runs of the further properties *)

Section Samples.

Import Mock.

Abbreviation smart40 := (ochrance_nvme_read_smart kernel 40).

Lemma invalid_arguments_make_no_call_witness :
  run kernel (smart40 (Some "/dev/nvme9") 0) world0
    = (- EINVAL, @mk_run kernel world0 []) /\
  run kernel (block_op kernel Reading (Some "/dev/nvme9") 1 0 4) world0
    = (- EINVAL, @mk_run kernel world0 []).
Proof.
  apply (invalid_arguments_make_no_call kernel 40 Reading
           (Some "/dev/nvme9") (Some "/dev/nvme9") 1 0 0 4 world0).
  - left. reflexivity.
  - left. reflexivity.
Defined.

Lemma open_nvme_descriptor_witness :
  exists path,
    Some "/dev/nvme0n1" = Some path /\
    status kernel (open_nvme kernel (Some "/dev/nvme0n1")) world0
      = (mock_open (Some path) O_RDONLY world0).1 /\
    calls kernel (open_nvme kernel (Some "/dev/nvme0n1")) world0
      = [SysOpen (Some path) O_RDONLY].
Proof.
  apply (open_nvme_descriptor kernel mock_errno_convention
           (Some "/dev/nvme0n1") world0).
  vm_compute. discriminate.
Defined.

Lemma read_smart_descriptor_scoped_witness :
  (length (opens (calls kernel (smart40 (Some "/dev/nvme3") 1000) world0))
   <= 1)%nat /\
  used_fds (calls kernel (smart40 (Some "/dev/nvme3") 1000) world0)
    = closed_fds (calls kernel (smart40 (Some "/dev/nvme3") 1000) world0) /\
  Forall (fun fd => 0 <= fd /\
                    fd = (mock_open (Some "/dev/nvme3") O_RDONLY world0).1)
    (closed_fds (calls kernel (smart40 (Some "/dev/nvme3") 1000) world0)).
Proof.
  exact (read_smart_descriptor_scoped kernel 40 mock_errno_convention
           (Some "/dev/nvme3") 1000 world0).
Defined.

Lemma block_status_zero_iff_witness :
  status kernel (block_op kernel Reading (Some "/dev/nvme0n1") 1 1000 4)
    world0 = 0.
Proof.
  apply (block_status_zero_iff kernel mock_errno_convention Reading
           (Some "/dev/nvme0n1") 1 1000 4 world0).
  vm_compute. repeat split; discriminate.
Defined.

Lemma smart_status_zero_iff_witness :
  status kernel (smart40 (Some "/dev/nvme0n1") 1000) world0 = 0.
Proof.
  apply (smart_status_zero_iff kernel 40 mock_errno_convention
           (Some "/dev/nvme0n1") 1000 world0).
  split; [discriminate|]. exists "/dev/nvme0n1".
  split; [reflexivity|]. vm_compute. split; discriminate.
Defined.

Lemma status_never_positive_witness :
  status kernel (smart40 (Some "/dev/nvme1n1") 1000) world0 <= 0 /\
  status kernel (block_op kernel Writing (Some "/dev/nvme1n1") 1 1000 4)
    world0 <= 0.
Proof.
  exact (status_never_positive kernel 40 mock_errno_convention Writing
           (Some "/dev/nvme1n1") 1 1000 1000 4 world0).
Defined.

(** read_smart on a node the caller may not open; write_block on a
    read-only mount, where a read-only open would have succeeded. *)
Lemma open_failure_is_passed_through_witness :
  status kernel (smart40 (Some "/dev/nvme4n1") 1000) world_locked
    = - EACCES /\
  run kernel (block_op kernel Writing (Some "/dev/nvme1n1") 1 1000 4) world0
    = (- EROFS,
       @mk_run kernel (mock_open (Some "/dev/nvme1n1") O_WRONLY world0).2
         [SysOpen (Some "/dev/nvme1n1") O_WRONLY]) /\
  0 <= (mock_open (Some "/dev/nvme1n1") O_RDONLY world0).1.
Proof.
  destruct (open_failure_is_passed_through kernel 40 mock_errno_convention
              Writing (Some "/dev/nvme1n1") "/dev/nvme4n1" 1 1000 1000 4
              world_locked world0)
    as [Hs Hb].
  split; [|split].
  - unfold status. rewrite Hs.
    + vm_compute. reflexivity.
    + discriminate.
    + vm_compute. reflexivity.
  - rewrite Hb.
    + vm_compute. reflexivity.
    + discriminate.
    + discriminate.
    + vm_compute. reflexivity.
  - vm_compute. discriminate.
Defined.

(** Block 2^61 of four bytes lies at byte 2^63, which as an [off_t] is
    -2^63: the simulated pread refuses the negative offset. *)
Lemma transfer_failure_is_passed_through_witness :
  status kernel
    (block_op kernel Reading (Some "/dev/nvme0n1") (2 ^ 61) 1000 4) world0
    = - EINVAL /\
  calls kernel
    (block_op kernel Reading (Some "/dev/nvme0n1") (2 ^ 61) 1000 4) world0
    = [SysOpen (Some "/dev/nvme0n1") O_RDONLY;
       SysPread 3 1000 4 (- 2 ^ 63);
       SysClose 3].
Proof.
  destruct (transfer_failure_is_passed_through kernel mock_errno_convention
              Reading (Some "/dev/nvme0n1") (2 ^ 61) 1000 4 world0)
    as (_ & Hcalls & Hpass).
  - discriminate.
  - discriminate.
  - vm_compute. discriminate.
  - vm_compute. reflexivity.
  - split; [|exact Hcalls].
    rewrite Hpass; [vm_compute; reflexivity | vm_compute; discriminate].
Defined.

Lemma block_addresses_alias_witness :
  run kernel
    (block_op kernel Reading (Some "/dev/nvme0n1") (1 + 2 ^ 62) 1000 4)
    world0
  = run kernel (block_op kernel Reading (Some "/dev/nvme0n1") 1 1000 4)
      world0.
Proof.
  apply (block_addresses_alias kernel Reading (Some "/dev/nvme0n1")
           1 (2 ^ 62) 1000 4 world0).
  vm_compute. reflexivity.
Defined.

Lemma smart_request_fits_buffer_witness :
  4 * (Z.shiftr (cdw10 (get_log_page_cmd 40 1000)) 16 + 1)
  = data_len (get_log_page_cmd 40 1000).
Proof.
  destruct (smart_request_fits_buffer 40 1000) as (_ & Heq & _).
  - lia.
  - apply Heq. reflexivity.
Defined.



End Samples.

(** ** The error number is read after the close *)

Section ErrnoAfterClose.

Variable K : Kernel.

(** X10: After a transfer that failed, the status is the negated [errno] as
    the close left it: when the close fails as well, its error number is
    the one reported, not the transfer's. *)
Theorem close_failure_masks_transfer_errno d p lba buf bs w :
  let o := sys_open K p (open_flags d) w in
  let r := sys_transfer K d o.1 buf bs (block_offset lba bs) o.2 in
  let c := sys_close K o.1 r.2 in
  buf <> 0 -> bs <> 0 -> 0 <= o.1 -> r.1 < 0 ->
  status K (block_op K d p lba buf bs) w = - errno K c.2.
Proof.
  intros o r c Hb Hs Ho Hr. unfold status.
  rewrite block_op_run by assumption. cbv zeta. fold o.
  assert (Ho' : (o.1 <? 0) = false) by (apply Z.ltb_ge; lia).
  rewrite Ho'. fold r. fold c. simpl.
  apply Z.ltb_lt in Hr. rewrite Hr. reflexivity.
Qed.

End ErrnoAfterClose.

(** On write-protected media the write fails with EROFS; with a close
    that fails with EIO the caller is told -EIO. *)
Lemma close_failure_masks_transfer_errno_witness :
  status flaky_kernel
    (block_op flaky_kernel Writing (Some "/dev/nvme2n1") 1 1000 4)
    Mock.world0 = - EIO /\
  errno flaky_kernel
    (sys_pwrite flaky_kernel 3 1000 4 4
       (sys_open flaky_kernel (Some "/dev/nvme2n1") O_WRONLY
          Mock.world0).2).2 = EROFS.
Proof.
  split; [|vm_compute; reflexivity].
  rewrite (close_failure_masks_transfer_errno flaky_kernel Writing
             (Some "/dev/nvme2n1") 1 1000 4 Mock.world0).
  - vm_compute. reflexivity.
  - discriminate.
  - discriminate.
  - vm_compute. discriminate.
  - vm_compute. reflexivity.
Defined.

(** ** Failures the shim does not report as such *)

Section Unreported.

Import Mock.

Lemma refusing_errno_convention : ErrnoConvention refusing_kernel.
Proof.
  split; simpl.
  - apply (open_sets_errno kernel mock_errno_convention).
  - apply (close_sets_errno kernel mock_errno_convention).
  - apply (close_keeps_errno kernel mock_errno_convention).
  - apply (pread_sets_errno kernel mock_errno_convention).
  - apply (pwrite_sets_errno kernel mock_errno_convention).
  - intros fd r c w. unfold refusing_ioctl, fail.
    repeat case_match; simpl; unfold EBADF, ENOTTY; lia.
Qed.

Lemma flaky_errno_convention : ErrnoConvention flaky_kernel.
Proof.
  split; simpl.
  - apply (open_sets_errno kernel mock_errno_convention).
  - intros fd w _. unfold flaky_close, fail. simpl. unfold EIO. lia.
  - intros fd w. unfold flaky_close, fail. simpl. lia.
  - apply (pread_sets_errno kernel mock_errno_convention).
  - apply (pwrite_sets_errno kernel mock_errno_convention).
  - apply (ioctl_sets_errno kernel mock_errno_convention).
Qed.

(** C3: the claim fails on the code.  When the controller completes the
    Get Log Page with an error status, the passthrough ioctl returns
    that status, a positive number; read_smart_log tests only for a
    negative return and reports success, 0, with the caller's buffer
    left as it was. *)
Theorem controller_failure_reported_as_success :
  (sys_ioctl refusing_kernel 3 NVME_IOCTL_ADMIN_CMD
     (get_log_page_cmd 40 1000)
     (sys_open refusing_kernel (Some "/dev/nvme0n1") O_RDONLY world0).2).1
    = 0x109 /\
  status refusing_kernel
    (ochrance_nvme_read_smart refusing_kernel 40 (Some "/dev/nvme0n1") 1000)
    world0 = 0 /\
  calls refusing_kernel
    (ochrance_nvme_read_smart refusing_kernel 40 (Some "/dev/nvme0n1") 1000)
    world0
    = [SysOpen (Some "/dev/nvme0n1") O_RDONLY;
       SysIoctl 3 NVME_IOCTL_ADMIN_CMD (get_log_page_cmd 40 1000);
       SysClose 3] /\
  mem_load
    (m_mem
       (final refusing_kernel
          (ochrance_nvme_read_smart refusing_kernel 40
             (Some "/dev/nvme0n1") 1000) world0)) 1000 40
    = mem_load (m_mem world0) 1000 40.
Proof. vm_compute. repeat split. Qed.

(** C8: the claim fails on the code.  On write-protected media the
    pwrite fails with EROFS; write_block reads [errno] only after
    close(fd), so when that close fails with EIO the caller is told
    -EIO, the generic I/O failure, where the same call with a close that
    succeeds is told -EROFS. *)
Theorem read_only_rejection_masked_by_close :
  (sys_pwrite flaky_kernel 3 1000 4 4
     (sys_open flaky_kernel (Some "/dev/nvme2n1") O_WRONLY world0).2).1 < 0 /\
  errno flaky_kernel
    (sys_pwrite flaky_kernel 3 1000 4 4
       (sys_open flaky_kernel (Some "/dev/nvme2n1") O_WRONLY world0).2).2
    = EROFS /\
  calls flaky_kernel
    (ochrance_nvme_write_block flaky_kernel (Some "/dev/nvme2n1") 1 1000 4)
    world0
    = [SysOpen (Some "/dev/nvme2n1") O_WRONLY;
       SysPwrite 3 1000 4 4;
       SysClose 3] /\
  status flaky_kernel
    (ochrance_nvme_write_block flaky_kernel (Some "/dev/nvme2n1") 1 1000 4)
    world0 = - EIO /\
  status kernel
    (ochrance_nvme_write_block kernel (Some "/dev/nvme2n1") 1 1000 4)
    world0 = - EROFS /\
  - EIO <> - EROFS.
Proof. vm_compute. repeat split; discriminate. Qed.

(** C4: the claim fails on the code.  The struct declares the fields of
    the specification, with their widths and in their order, but without
    a packing attribute: the members lie at offsets 0, 2, 4, 5, 6, 8, 16,
    24, 32, 36 in 40 bytes, not contiguously at 0, 1, 3, 4, 5, 6, 14, 22,
    30, 34 in 38.  After a successful read_smart_log of a page whose
    fields are contiguous the buffer holds the first 40 bytes of the
    page, and only the first member holds its field: the temperature
    member holds bytes 2 and 3 of the page, not the temperature at bytes
    1 and 2. *)
Theorem smart_info_members_misplaced :
  ((fun '(_, t) => (8 * scalar_size t)%nat) <$> ochrance_smart_info_t)
    = (snd <$> spec_smart_info) /\
  length ochrance_smart_info_t = length spec_smart_info /\
  struct_offsets ochrance_smart_info_t
    = [0; 2; 4; 5; 6; 8; 16; 24; 32; 36]%nat /\
  struct_sizeof ochrance_smart_info_t = 40%nat /\
  contiguous_offsets 0 (snd <$> ochrance_smart_info_t)
    = [0; 1; 3; 4; 5; 6; 14; 22; 30; 34]%nat /\
  contiguous_size ochrance_smart_info_t = 38%nat /\
  let size := Z.of_nat (struct_sizeof ochrance_smart_info_t) in
  let call := ochrance_nvme_read_smart kernel size (Some "/dev/nvme5") 1000 in
  let m := m_mem (final kernel call world_contiguous) in
  status kernel call world_contiguous = 0 /\
  mem_load m 1000 40 = take 40 contiguous_page /\
  members_in_page contiguous_page ochrance_smart_info_t !! 1%nat
    = Some [x2c; x01] /\
  members_in_struct m 1000 ochrance_smart_info_t !! 1%nat
    = Some [x01; x64] /\
  zip_with (fun a b => bool_decide (Byte.to_N <$> a = Byte.to_N <$> b))
    (members_in_struct m 1000 ochrance_smart_info_t)
    (members_in_page contiguous_page ochrance_smart_info_t)
    = [true; false; false; false; false; false; false; false; false; false].
Proof. vm_compute. repeat split. Qed.

End Unreported.

(** ** The log page in the caller's struct *)

Section LogPage.

Import Mock.

Lemma get_log_page_cmd_40 info :
  0 <= info < 2 ^ 64 ->
  get_log_page_cmd 40 info
  = mk_cmd 0x02 0 0 0xFFFFFFFF 0 0 0 info 0 40 0x00090002 0 0 0 0 0 0 0.
Proof.
  intros H. unfold get_log_page_cmd, cmd_zero, set_opcode, set_nsid,
    set_addr, set_data_len, set_cdw10, to_uintptr_t.
  rewrite !(to_u64_small info) by lia. reflexivity.
Qed.

(** A slice of what was stored from the head of a page is the slice of
    the page. *)
Lemma mem_load_store_take m a (page : list byte) total off n :
  (off + n <= total)%nat -> (total <= length page)%nat ->
  mem_load (mem_store m a (take total page)) (a + Z.of_nat off) n
  = take n (drop off page).
Proof.
  intros Hin Hlen. apply list_eq. intros i. unfold mem_load.
  rewrite list_lookup_fmap.
  destruct (decide (i < n)%nat) as [Hlt | Hge].
  - rewrite lookup_seq_lt by exact Hlt. simpl.
    rewrite lookup_take_lt by exact Hlt. rewrite lookup_drop.
    destruct (lookup_lt_is_Some_2 page (off + i)) as [b Hb]; [lia|].
    rewrite Hb. unfold mem_store.
    destruct (Z.ltb_spec (a + Z.of_nat off + Z.of_nat i) a); [lia|].
    replace (Z.to_nat (a + Z.of_nat off + Z.of_nat i - a))
      with (off + i)%nat by lia.
    rewrite lookup_take_lt by lia. rewrite Hb. reflexivity.
  - rewrite lookup_seq_ge by lia.
    rewrite lookup_ge_None_2; [reflexivity|].
    rewrite length_take. lia.
Qed.

(** With the struct's size of 40, a read_smart that succeeds on the
    simulated kernel has stored the first 40 bytes of the device's log
    page at [info]. *)
Lemma mock_read_smart_success w path d page info :
  m_devs w !! path = Some d -> d_smart d = inr page ->
  0 <= info < 2 ^ 64 ->
  status kernel (ochrance_nvme_read_smart kernel 40 (Some path) info) w
    = 0 ->
  m_mem (final kernel
           (ochrance_nvme_read_smart kernel 40 (Some path) info) w)
  = mem_store (m_mem w) info (take 40 page).
Proof.
  intros Hd Hp Hinfo Hok.
  assert (Hi : info <> 0).
  { intros ->. unfold status in Hok.
    rewrite read_smart_null_info in Hok. discriminate. }
  assert (Ho : 0 <= (sys_open kernel (Some path) O_RDONLY w).1).
  { destruct (Z.lt_ge_cases (sys_open kernel (Some path) O_RDONLY w).1 0)
      as [Hneg | Hge]; [|exact Hge].
    pose proof (open_sets_errno kernel mock_errno_convention _ _ _ Hneg)
      as He.
    unfold status in Hok.
    rewrite read_smart_open_failed in Hok by assumption.
    simpl in Hok. simpl in He. lia. }
  unfold final. rewrite read_smart_run by assumption.
  cbv zeta. rewrite get_log_page_cmd_40 by exact Hinfo.
  simpl sys_open in *. unfold mock_open in *. rewrite Hd in *.
  destruct (d_access d); [|simpl in Ho; lia].
  simpl in *.
  destruct (fd_alloc _ (m_fds w)) as [i fds'] eqn:Halloc. simpl.
  unfold mock_ioctl, mock_close. simpl.
  rewrite (fd_lookup_alloc _ _ _ _ Halloc). simpl.
  rewrite Hd, Hp. simpl.
  rewrite (fd_lookup_alloc _ _ _ _ Halloc). reflexivity.
Qed.

(** X18: on the simulated kernel, with the struct's LP64 size of 40
    bytes, a read_smart that returns 0 leaves in the caller's struct byte
    for byte the first 40 bytes of the device's log page: each member
    holds the bytes of the page at that member's offset in the struct. *)
Theorem smart_success_copies_log_page w path d page info :
  let size := Z.of_nat (struct_sizeof ochrance_smart_info_t) in
  let call := ochrance_nvme_read_smart kernel size (Some path) info in
  let m := m_mem (final kernel call w) in
  m_devs w !! path = Some d -> d_smart d = inr page ->
  (40 <= length page)%nat -> 0 <= info < 2 ^ 64 ->
  status kernel call w = 0 ->
  mem_load m info 40 = take 40 page /\
  members_in_struct m info ochrance_smart_info_t
  = zip_with (fun o t => take (scalar_size t) (drop o page))
      (struct_offsets ochrance_smart_info_t)
      (snd <$> ochrance_smart_info_t).
Proof.
  intros size call m Hd Hp Hlen Hinfo Hok.
  change size with 40 in *.
  assert (Hm : m = mem_store (m_mem w) info (take 40 page))
    by (apply (mock_read_smart_success w path d page info); assumption).
  rewrite Hm. split.
  - replace info with (info + Z.of_nat 0) at 2 by lia.
    rewrite (mem_load_store_take _ _ _ 40 0 40) by lia. reflexivity.
  - unfold members_in_struct.
    change (struct_offsets ochrance_smart_info_t)
      with [0; 2; 4; 5; 6; 8; 16; 24; 32; 36]%nat.
    change (snd <$> ochrance_smart_info_t)
      with [U8; U16; U8; U8; U8; U64; U64; U64; U32; U32].
    cbn [zip_with scalar_size].
    repeat (apply (f_equal2 cons); [apply mem_load_store_take; lia|]).
    reflexivity.
Qed.

Lemma smart_success_copies_log_page_witness :
  mem_load
    (m_mem
       (final kernel
          (ochrance_nvme_read_smart kernel 40 (Some "/dev/nvme5") 1000)
          world_contiguous)) 1000 40
  = take 40 contiguous_page.
Proof.
  apply (smart_success_copies_log_page world_contiguous "/dev/nvme5"
           disk_contiguous contiguous_page 1000).
  - vm_compute. reflexivity.
  - reflexivity.
  - vm_compute. lia.
  - lia.
  - vm_compute. reflexivity.
Defined.

End LogPage.
